(** * TagFolder: item list, comparator, file caches and change scheduler

    A shallow embedding of the core of [src/main.ts] (the TagFolder plugin):
    - [getCompareMethodItems]            (main.ts 91-113)
    - [updateFileCachesAll], [updateFileCaches]   (main.ts 484-551)
    - [getItemsList]                     (main.ts 553-709)
    - [loadFileInfos], [applyFileInfoToView], [loadFileInfoAsync]
                                         (main.ts 735-801)

    JavaScript strings are embedded as [string] (sequences of 8-bit code
    units), arrays as [list], the plain objects used as dictionaries
    ([tagInfo], [tagRedirectList]) and the [Map] [parsedFileCache] as
    [gmap string _], numbers that hold timestamps as [Z].  The host
    application (vault, metadata cache, clock, open views) is a record
    [Host] that the plugin's methods read. *)

From Stdlib Require Import ZArith Lia Bool Ascii String List.
From Stdlib Require Import Sorting.Sorted Sorting.Permutation.
From stdpp Require Import base option gmap strings.
Import ListNotations.

Local Open Scope Z_scope.

(** ** JavaScript string and array primitives *)

Module JS.

(** [c.toLowerCase()] on one code unit; only the ASCII letters have a
    lower-case form in this embedding. *)
Definition lowerAscii (c : ascii) : ascii :=
  let n := N_of_ascii c in
  if ((65 <=? n) && (n <=? 90))%N then ascii_of_N (n + 32) else c.

(** [s.toLowerCase()] *)
Fixpoint toLowerCase (s : string) : string :=
  match s with
  | EmptyString => EmptyString
  | String c s' => String (lowerAscii c) (toLowerCase s')
  end.

(** [s.startsWith(p)] *)
Definition startsWith (s p : string) : bool := String.prefix p s.

(** [s.contains(p)] (Obsidian's alias of [String.prototype.includes]) *)
Fixpoint contains (s p : string) : bool :=
  String.prefix p s ||
  match s with
  | EmptyString => false
  | String _ s' => contains s' p
  end.

(** [s.endsWith(p)] *)
Fixpoint endsWith (s p : string) : bool :=
  String.eqb s p ||
  match s with
  | EmptyString => false
  | String _ s' => endsWith s' p
  end.

(** [s.substring(1)] *)
Definition substring1 (s : string) : string :=
  match s with
  | EmptyString => EmptyString
  | String _ s' => s'
  end.

(** [s.split(sep)] for a one-character separator; the empty string
    splits into one empty piece. *)
Fixpoint split (sep : ascii) (s : string) : list string :=
  match s with
  | EmptyString => [EmptyString]
  | String c s' =>
      if Ascii.eqb c sep then EmptyString :: split sep s'
      else match split sep s' with
           | [] => [String c EmptyString]
           | piece :: rest => String c piece :: rest
           end
  end.

(** [pieces.join(sep)] *)
Fixpoint join (sep : string) (pieces : list string) : string :=
  match pieces with
  | [] => EmptyString
  | [p] => p
  | p :: rest => p +:+ sep +:+ join sep rest
  end.

(** [s.replace(/[...]/g, '')]: delete every code unit in the class. *)
Fixpoint removeAll (class : ascii -> bool) (s : string) : string :=
  match s with
  | EmptyString => EmptyString
  | String c s' =>
      if class c then removeAll class s' else String c (removeAll class s')
  end.

Definition isNewline (c : ascii) : bool := Ascii.eqb c "010"%char.
Definition isNewlineOrSpace (c : ascii) : bool :=
  Ascii.eqb c "010"%char || Ascii.eqb c " "%char.

Fixpoint trimStart (s : string) : string :=
  match s with
  | EmptyString => EmptyString
  | String c s' => if Ascii.is_space c then trimStart s' else s
  end.

(** [s.trim()] over the ASCII white space. *)
Definition trim (s : string) : string :=
  String.rev (trimStart (String.rev (trimStart s))).

(** [arr.contains(x)] on an array of strings. *)
Definition includes (arr : list string) (x : string) : bool :=
  existsb (String.eqb x) arr.

(** Modelled from the spec: [unique] of the utility module, which is
    not part of the sources at hand.  It removes duplicates and keeps
    the first occurrence of every element, as
    [[...new Set(items)]] does. *)
Fixpoint uniqueAcc (seen : list string) (items : list string) : list string :=
  match items with
  | [] => []
  | x :: rest =>
      if includes seen x then uniqueAcc seen rest
      else x :: uniqueAcc (x :: seen) rest
  end.
Definition unique (items : list string) : list string := uniqueAcc [] items.

(** Modelled from the spec: [uniqueCaseIntensive] of the utility module,
    which is not part of the sources at hand: "deduplicate
    case-insensitively, preserving first-seen casing". *)
Fixpoint uniqueCaseAcc (seen : list string) (pieces : list string) : list string :=
  match pieces with
  | [] => []
  | x :: rest =>
      if includes seen (toLowerCase x) then uniqueCaseAcc seen rest
      else x :: uniqueCaseAcc (toLowerCase x :: seen) rest
  end.
Definition uniqueCaseIntensive (pieces : list string) : list string :=
  uniqueCaseAcc [] pieces.

End JS.

(** ** Data model (types.ts, as far as main.ts uses it) *)

Record FileStats := { st_mtime : Z; st_ctime : Z }.

Record TFile := {
  f_path : string;
  f_basename : string;
  f_extension : string;
  f_stat : FileStats
}.

Record FileCache := {
  fc_file : TFile;
  fc_links : list string;
  fc_tags : list string
}.

Record ViewItem := {
  vi_tags : list string;
  vi_extraTags : list string;
  vi_path : string;
  vi_displayName : string;
  vi_ancestors : list string;
  vi_mtime : Z;
  vi_ctime : Z;
  vi_filename : string;
  vi_links : list string
}.

Inductive DISPLAY_METHOD := PATH_NAME | NAME | NAME_PATH | OtherDisplayMethod.

Record TagInfo := {
  ti_key : option string;
  ti_mark : option string;
  ti_alt : option string;
  ti_redirect : option string
}.

Record TagFolderSettings := {
  displayMethod : DISPLAY_METHOD;
  useTitle : bool;
  frontmatterKey : string;
  customTagKey : string;
  sortType : string;
  ignoreDocTags : string;
  ignoreTags : string;
  ignoreFolders : string;
  targetFolders : string;
  archiveTags : string;
  useTagInfo : bool;
  disableNestedTags : bool;
  disableNarrowingDown : bool;
  useVirtualTag : bool;
  displayFolderAsTag : bool
}.

(** ** Comparator (main.ts 91-113) *)

Section Comparator.

(** [compare] of the utility module: the host's string collation. *)
Variable compare : string -> string -> Z.

Definition invertOf (sortType : string) : Z :=
  if JS.contains sortType "_DESC" then -1 else 1.

Definition isOneOf (s : string) (cases : list string) : bool :=
  existsb (String.eqb s) cases.

Definition getCompareMethodItems (settings : TagFolderSettings)
  : ViewItem -> ViewItem -> Z :=
  let invert := invertOf (sortType settings) in
  let ty := sortType settings in
  if isOneOf ty ["DISPNAME_ASC"; "DISPNAME_DESC"] then
    fun a b => compare (vi_displayName a) (vi_displayName b) * invert
  else if isOneOf ty ["FULLPATH_ASC"; "FULLPATH_DESC"] then
    fun a b => compare (vi_path a) (vi_path b) * invert
  else if isOneOf ty ["MTIME_ASC"; "MTIME_DESC"] then
    fun a b => (vi_mtime a - vi_mtime b) * invert
  else if isOneOf ty ["CTIME_ASC"; "CTIME_DESC"] then
    fun a b => (vi_ctime a - vi_ctime b) * invert
  else if isOneOf ty ["NAME_ASC"; "NAME_DESC"] then
    fun a b => compare (vi_filename a) (vi_filename b) * invert
  else
    (* console.warn('Compare method (items) corrupted') *)
    fun a b => compare (vi_displayName a) (vi_displayName b) * invert.

End Comparator.

(** The sort types the [switch] has a [case] for. *)
Definition recognizedSortTypes : list string :=
  ["DISPNAME_ASC"; "DISPNAME_DESC"; "FULLPATH_ASC"; "FULLPATH_DESC";
   "MTIME_ASC"; "MTIME_DESC"; "CTIME_ASC"; "CTIME_DESC";
   "NAME_ASC"; "NAME_DESC"].

(** A concrete collation: code-unit order, as -1, 0 or 1. *)
Definition codeUnitCompare (x y : string) : Z :=
  match String.compare x y with
  | Lt => -1
  | Eq => 0
  | Gt => 1
  end.

(** ** The host application *)

(** A frontmatter value, as far as [getFileCacheTags] inspects it
    ([Array.isArray] and [typeof e == 'string']). *)
Inductive FmScalar := FmStr (s : string) | FmNonStr.
Inductive FmValue := FmArray (xs : list FmScalar) | FmSingle (x : FmScalar).

Record CachedMetadata := {
  (** [getAllTags(metadata)], [None] for [null] *)
  md_allTags : option (list string);
  (** [metadata.frontmatter] *)
  md_frontmatter : option (gmap string FmValue);
  (** [`${dotted(metadata.frontmatter, key)}`] when that value is truthy *)
  md_dotted : string -> option string;
  (** [metadata.headings] as (level, heading), [None] when absent *)
  md_headings : option (list (Z * string))
}.

Record Host := {
  (** [Date.now()] *)
  h_now : Z;
  (** [getLinkView() != null] *)
  h_linkView : bool;
  (** the [TFile]s among [app.vault.getAllLoadedFiles()] *)
  h_files : list TFile;
  (** [app.metadataCache.getFileCache(file)], which looks the path up *)
  h_getFileCache : string -> option CachedMetadata;
  (** [parseAllReference(resolvedLinks, path, settings.linkConfig)] *)
  h_parseAllReference : string -> list string;
  (** [secondsToFreshness] of the utility module *)
  h_secondsToFreshness : Z -> string
}.

Definition getMarkdownFiles (host : Host) : list TFile :=
  List.filter (fun f => String.eqb (f_extension f) "md") (h_files host).

(** [getAbstractFileByPath(p)] when the result is a [TFile] *)
Definition getAbstractFileByPath (host : Host) (p : string) : option TFile :=
  List.find (fun f => String.eqb (f_path f) p) (h_files host).

(** ** Plugin state *)

Definition CacheDump : Type := list (string * list string * list string).

Record Plugin := {
  settings : TagFolderSettings;
  tagInfo : gmap string TagInfo;
  searchString : string;
  fileCaches : list FileCache;
  (** [oldFileCache]: [None] is the initial [''], which no dump equals *)
  oldFileCache : option CacheDump;
  parsedFileCache : gmap string Z;
  compareItems : ViewItem -> ViewItem -> Z;
  allViewItems : list ViewItem;
  allViewItemsByLink : list ViewItem
}.

Definition set_fileCaches (pl : Plugin) (v : list FileCache) : Plugin :=
  {| settings := settings pl; tagInfo := tagInfo pl;
     searchString := searchString pl; fileCaches := v;
     oldFileCache := oldFileCache pl; parsedFileCache := parsedFileCache pl;
     compareItems := compareItems pl; allViewItems := allViewItems pl;
     allViewItemsByLink := allViewItemsByLink pl |}.

Definition set_oldFileCache (pl : Plugin) (v : option CacheDump) : Plugin :=
  {| settings := settings pl; tagInfo := tagInfo pl;
     searchString := searchString pl; fileCaches := fileCaches pl;
     oldFileCache := v; parsedFileCache := parsedFileCache pl;
     compareItems := compareItems pl; allViewItems := allViewItems pl;
     allViewItemsByLink := allViewItemsByLink pl |}.

Definition set_allViewItems (pl : Plugin) (v : list ViewItem) : Plugin :=
  {| settings := settings pl; tagInfo := tagInfo pl;
     searchString := searchString pl; fileCaches := fileCaches pl;
     oldFileCache := oldFileCache pl; parsedFileCache := parsedFileCache pl;
     compareItems := compareItems pl; allViewItems := v;
     allViewItemsByLink := allViewItemsByLink pl |}.

Definition set_allViewItemsByLink (pl : Plugin) (v : list ViewItem) : Plugin :=
  {| settings := settings pl; tagInfo := tagInfo pl;
     searchString := searchString pl; fileCaches := fileCaches pl;
     oldFileCache := oldFileCache pl; parsedFileCache := parsedFileCache pl;
     compareItems := compareItems pl; allViewItems := allViewItems pl;
     allViewItemsByLink := v |}.

(** ** Titles and display names (main.ts 196-228) *)

Definition getFileTitle (pl : Plugin) (host : Host) (file : TFile) : string :=
  if negb (useTitle (settings pl)) then f_basename file
  else
    let metadata := h_getFileCache host (f_path file) in
    let fromFrontmatter :=
      match metadata with
      | Some md =>
          match md_frontmatter md with
          | Some _ =>
              if String.eqb (frontmatterKey (settings pl)) EmptyString then None
              else md_dotted md (frontmatterKey (settings pl))
          | None => None
          end
      | None => None
      end in
    match fromFrontmatter with
    | Some d => d
    | None =>
        let h1 :=
          match metadata with
          | Some md =>
              match md_headings md with
              | Some hs => List.find (fun e => fst e =? 1) hs
              | None => None
              end
          | None => None
          end in
        match h1 with
        | Some e => snd e
        | None => f_basename file
        end
    end.

Definition getDisplayName (pl : Plugin) (host : Host) (file : TFile) : string :=
  let filename :=
    let t := getFileTitle pl host file in
    if String.eqb t EmptyString then f_basename file else t in
  match displayMethod (settings pl) with
  | NAME => filename
  | NAME_PATH =>
      filename +:+ " : " +:+ JS.join "/" (removelast (JS.split "/" (f_path file)))
  | PATH_NAME =>
      JS.join "/" (removelast (JS.split "/" (f_path file))) +:+ "/" +:+ filename
  | OtherDisplayMethod => filename
  end.

(** ** File caches (main.ts 444-551) *)

Definition getFileCacheLinks (host : Host) (file : TFile) : list string :=
  let allLinks :=
    if h_linkView host then h_parseAllReference host (f_path file) else [] in
  List.filter (fun e => JS.endsWith e ".md") allLinks.

Definition fmStrings (v : option FmValue) : list string :=
  let scalars :=
    match v with
    | Some (FmArray xs) => xs
    | Some (FmSingle x) => [x]
    | None => [FmNonStr]
    end in
  flat_map (fun e => match e with FmStr s => [s] | FmNonStr => [] end) scalars.

Definition getFileCacheTags (pl : Plugin) (metadata : CachedMetadata) : list string :=
  let key := customTagKey (settings pl) in
  if negb (String.eqb key EmptyString) && negb (String.eqb key "tags") then
    let customTag :=
      match md_frontmatter metadata with
      | Some fm => fm !! key
      | None => None
      end in
    map (fun e => "#" +:+ e) (fmStrings customTag)
  else
    match md_allTags metadata with
    | Some tags => tags
    | None => []
    end.

Definition getFileCacheData (pl : Plugin) (host : Host) (file : TFile)
  : option FileCache :=
  match h_getFileCache host (f_path file) with
  | None => None
  | Some metadata =>
      Some {| fc_file := file;
              fc_links := getFileCacheLinks host file;
              fc_tags := getFileCacheTags pl metadata |}
  end.

Definition dumpOf (caches : list FileCache) : CacheDump :=
  map (fun e => (f_path (fc_file e), fc_links e, fc_tags e)) caches.

Definition isFileCacheChanged (pl : Plugin) : Plugin * bool :=
  let fileCacheDump := dumpOf (fileCaches pl) in
  if bool_decide (oldFileCache pl = Some fileCacheDump) then (pl, false)
  else (set_oldFileCache pl (Some fileCacheDump), true).

(** The filter callback of line 489,
    [parsedFileCache.get(file.path) ?? 0 != file.stat.mtime]:
    [!=] binds tighter than [??], so the callback returns the recorded
    number when there is one (truthy unless it is 0) and [0 != mtime]
    otherwise. *)
Definition needsProcessing (pl : Plugin) (file : TFile) : bool :=
  match parsedFileCache pl !! f_path file with
  | Some recorded => negb (recorded =? 0)
  | None => negb (0 =? st_mtime (f_stat file))
  end.

Definition filesAll (host : Host) : list TFile :=
  getMarkdownFiles host ++
  List.filter (fun e => String.eqb (f_extension e) "canvas") (h_files host).

Definition processFiles (pl : Plugin) (host : Host) : list TFile :=
  List.filter (needsProcessing pl) (filesAll host).

Definition updateFileCachesAll (pl : Plugin) (host : Host) : Plugin * bool :=
  let caches := omap (getFileCacheData pl host) (processFiles pl host) in
  isFileCacheChanged (set_fileCaches pl caches).

(** Modelled from the spec: [fileCacheToCompare] of the utility module,
    which is not part of the sources at hand; the compared projection is
    "the externally-observable projection (path, tags, links triple)". *)
Definition fileCacheToCompare (c : option FileCache)
  : option (string * list string * list string) :=
  match c with
  | Some e => Some (f_path (fc_file e), fc_tags e, fc_links e)
  | None => None
  end.

Definition samePath (p : string) (c : FileCache) : bool :=
  String.eqb (f_path (fc_file c)) p.

(** [newCaches.filter(fileCache => fileCache !== old)] where [old] is the
    first entry found for the path: every cache entry is a fresh object,
    so exactly that entry goes. *)
Fixpoint removeFirst (p : string) (caches : list FileCache) : list FileCache :=
  match caches with
  | [] => []
  | c :: rest => if samePath p c then rest else c :: removeFirst p rest
  end.

(** [all.filter(link => !oldLinks.contains(link) || !newLinks.contains(link))]
    over [all = unique([...oldLinks, ...newLinks])] *)
Definition linkDiffs (oldLinks newLinks : list string) : list string :=
  List.filter
    (fun link => negb (JS.includes oldLinks link) || negb (JS.includes newLinks link))
    (JS.unique (oldLinks ++ newLinks)).

Definition oldLinksOf (old : option FileCache) : list string :=
  match old with Some o => fc_links o | None => [] end.

(** What one round of the [do ... while] body does with [procDiff]:
    the files pushed on [processDiffs], the new [newCaches], and whether
    the compared projection changed. *)
Definition sweepStep (pl : Plugin) (host : Host) (procDiff : TFile)
    (newCaches : list FileCache) : list TFile * list FileCache * bool :=
  let old := List.find (samePath (f_path procDiff)) newCaches in
  let newCaches1 :=
    match old with
    | Some _ => removeFirst (f_path procDiff) newCaches
    | None => newCaches
    end in
  let newCache := getFileCacheData pl host procDiff in
  let changed :=
    negb (bool_decide (fileCacheToCompare old = fileCacheToCompare newCache)) in
  match newCache with
  | Some nc =>
      let pushed :=
        if h_linkView host then
          omap (getAbstractFileByPath host) (linkDiffs (oldLinksOf old) (fc_links nc))
        else [] in
      (pushed, newCaches1 ++ [nc], changed)
  | None => ([], newCaches1, changed)
  end.

(** The loop of lines 518-547.  [processDiffs.shift()] is the head of the
    queue; an [undefined] entry, like the empty queue, ends the loop. *)
Fixpoint sweep (pl : Plugin) (host : Host) (fuel : nat)
    (processDiffs : list (option TFile)) (newCaches : list FileCache)
    (anyUpdated : bool) : option (list FileCache * bool) :=
  match fuel with
  | O => None
  | S fuel' =>
      match processDiffs with
      | [] => Some (newCaches, anyUpdated)
      | None :: _ => Some (newCaches, anyUpdated)
      | Some procDiff :: rest =>
          let '(pushed, newCaches', changed) := sweepStep pl host procDiff newCaches in
          sweep pl host fuel' (rest ++ map Some pushed) newCaches'
                (anyUpdated || changed)
      end
  end.

(** Rounds that always suffice (see [sweep_terminates]). *)
Definition sweepBound (host : Host) (processDiffs : list (option TFile))
    (newCaches : list FileCache) : nat :=
  S (length processDiffs +
     (length newCaches + length (h_files host) + length processDiffs)
     * S (length (h_files host))).

Definition updateFileCaches (pl : Plugin) (host : Host)
    (diffs : list (option TFile)) : Plugin * bool :=
  if (length (fileCaches pl) =? 0)%nat || (length diffs =? 0)%nat then
    updateFileCachesAll pl host
  else
    match sweep pl host (sweepBound host diffs (fileCaches pl)) diffs
                (fileCaches pl) false with
    | Some (newCaches, anyUpdated) => (set_fileCaches pl newCaches, anyUpdated)
    | None => (pl, false) (* not taken: the bound suffices *)
    end.

(** *** Measures of the work a sweep has left *)



Definition hasMetadata (host : Host) (p : string) : bool :=
  match h_getFileCache host p with Some _ => true | None => false end.





(** ** The item list (main.ts 553-709) *)

Inductive Mode := TagMode | LinkMode.

Definition isTagMode (mode : Mode) : bool :=
  match mode with TagMode => true | LinkMode => false end.

(** [s.toLowerCase().replace(/[\n ]/g, '').split(',')] *)
Definition parseTagList (s : string) : list string :=
  JS.split ","%char (JS.removeAll JS.isNewlineOrSpace (JS.toLowerCase s)).

(** [s.toLowerCase().replace(/\n/g, '').split(',').map(trim).filter(e => !!e)] *)
Definition parseFolderList (s : string) : list string :=
  List.filter (fun e => negb (String.eqb e EmptyString))
    (map JS.trim
       (JS.split ","%char (JS.removeAll JS.isNewline (JS.toLowerCase s)))).

(** [searchString.toLowerCase().split('|').map(ee => ee.split(' ').map(trim))] *)
Definition parseSearch (s : string) : list (list string) :=
  map (fun ee => map JS.trim (JS.split " "%char ee))
      (JS.split "|"%char (JS.toLowerCase s)).

(** The [tagRedirectList] object built at lines 592-599; an empty
    [redirect] is falsy and gives no entry.  Tag names are taken not to
    collide with the property names every object inherits. *)
Definition tagRedirectList (pl : Plugin) : gmap string string :=
  if useTagInfo (settings pl) then
    omap (fun ti =>
            match ti_redirect ti with
            | Some r => if String.eqb r EmptyString then None else Some r
            | None => None
            end) (tagInfo pl)
  else ∅.

(** [e in tagRedirectList ? tagRedirectList[e] : e] *)
Definition redirectTag (rl : gmap string string) (e : string) : string :=
  match rl !! e with
  | Some target => target
  | None => e
  end.

Definition pathHasPrefixIn (folders : list string) (path : string) : bool :=
  existsb (fun e => negb (String.eqb e EmptyString) &&
                    JS.startsWith (JS.toLowerCase path) e) folders.

(** Lines 580-590: [true] when the loop goes on with the file. *)
Definition folderAccepted (pl : Plugin) (fileCache : FileCache) : bool :=
  let targets := parseFolderList (targetFolders (settings pl)) in
  let ignores := parseFolderList (ignoreFolders (settings pl)) in
  let path := f_path (fc_file fileCache) in
  negb ((0 <? length targets)%nat && negb (pathHasPrefixIn targets path))
  && negb (pathHasPrefixIn ignores path).

Definition sentinelOf (mode : Mode) : string :=
  match mode with TagMode => "_untagged" | LinkMode => "_unlinked" end.

(** Lines 601-639: the tags of one file after redirection, flattening,
    the sentinel, the virtual tags and the second redirection. *)
Definition resolveTags (pl : Plugin) (host : Host) (mode : Mode)
    (fileCache : FileCache) : list string :=
  let rl := tagRedirectList pl in
  let file := fc_file fileCache in
  let allTags0 :=
    match mode with
    | TagMode =>
        let allTagsDocs := JS.unique (fc_tags fileCache) in
        JS.unique (map (redirectTag rl) (map JS.substring1 allTagsDocs))
    | LinkMode => JS.unique (fc_links fileCache)
    end in
  let allTags1 :=
    if disableNestedTags (settings pl) && isTagMode mode
    then flat_map (JS.split "/"%char) allTags0
    else allTags0 in
  let allTags2 :=
    match allTags1 with
    | [] => [sentinelOf mode]
    | _ => allTags1
    end in
  let allTags3 :=
    if String.eqb (f_extension file) "canvas"
    then allTags2 ++ ["_VIRTUAL_TAG_CANVAS"]
    else allTags2 in
  let allTags4 :=
    if useVirtualTag (settings pl) then
      let diff := h_now host - st_mtime (f_stat file) in
      let disp := h_secondsToFreshness host diff in
      allTags3 ++ ["_VIRTUAL_TAG_FRESHNESS/" +:+ disp]
    else allTags3 in
  let allTags5 :=
    if displayFolderAsTag (settings pl) then
      let path := removelast ("_VIRTUAL_TAG_FOLDER" :: JS.split "/"%char (f_path file)) in
      if (0 <? length path)%nat then allTags4 ++ [JS.join "/" path] else allTags4
    else allTags4 in
  JS.uniqueCaseIntensive (map (redirectTag rl) allTags5).

(** Line 641 *)
Definition hasIgnoredDocTag (pl : Plugin) (allTags : list string) : bool :=
  let ignoreDocTags := parseTagList (ignoreDocTags (settings pl)) in
  existsb (fun tag => JS.includes ignoreDocTags (JS.toLowerCase tag)) allTags.

(** One term of a search group (lines 650-664): the new value of [bx]. *)
Definition searchTerm (allTagsTitle : list string) (bx : bool) (searchSrc : string)
  : bool :=
  let hashed := JS.startsWith searchSrc "#" in
  let search := if hashed then JS.substring1 searchSrc else searchSrc in
  let func := if hashed then JS.startsWith else JS.contains in
  if JS.startsWith search "-" then
    bx || existsb (fun tag => func (JS.toLowerCase tag) (JS.substring1 search))
                  allTagsTitle
  else
    bx || forallb (fun tag => negb (func (JS.toLowerCase tag) search)) allTagsTitle.

(** Lines 646-668: [true] when every search group rejects the file. *)
Definition searchRejects (pl : Plugin) (host : Host) (fileCache : FileCache)
    (allTags : list string) : bool :=
  let searchItems := parseSearch (searchString pl) in
  let allTagsTitle := allTags ++ [getFileTitle pl host (fc_file fileCache)] in
  let w :=
    map (fun searchItem =>
           if (length allTagsTitle =? 0)%nat then false
           else fold_left (searchTerm allTagsTitle) searchItem false)
        searchItems in
  forallb (fun e => e) w.

(** Line 670 *)
Definition dropIgnoredTags (pl : Plugin) (allTags : list string) : list string :=
  let ignoreTags := parseTagList (ignoreTags (settings pl)) in
  List.filter (fun tag => negb (JS.includes ignoreTags (JS.toLowerCase tag))) allTags.

(** The tags a file is listed with once it passed the filters. *)
Definition effectiveTags (pl : Plugin) (host : Host) (mode : Mode)
    (fileCache : FileCache) : list string :=
  dropIgnoredTags pl (resolveTags pl host mode fileCache).

Definition linksOf (fileCache : FileCache) : list string :=
  match fc_links fileCache with
  | [] => ["_unlinked"]
  | links => links
  end.

Definition mkItem (pl : Plugin) (host : Host) (fileCache : FileCache)
    (tags extraTags : list string) : ViewItem :=
  {| vi_tags := tags;
     vi_extraTags := extraTags;
     vi_path := f_path (fc_file fileCache);
     vi_displayName := getDisplayName pl host (fc_file fileCache);
     vi_ancestors := [];
     vi_mtime := st_mtime (f_stat (fc_file fileCache));
     vi_ctime := st_ctime (f_stat (fc_file fileCache));
     vi_filename := f_basename (fc_file fileCache);
     vi_links := linksOf fileCache |}.

(** Lines 678-706 *)
Definition expandItems (pl : Plugin) (host : Host) (mode : Mode)
    (fileCache : FileCache) (allTags : list string) : list ViewItem :=
  if disableNarrowingDown (settings pl) && isTagMode mode then
    let archiveTags := parseTagList (archiveTags (settings pl)) in
    let archiveTagsMatched :=
      List.filter (fun e => JS.includes archiveTags (JS.toLowerCase e)) allTags in
    let targetTags :=
      match archiveTagsMatched with
      | [] => allTags
      | _ => archiveTagsMatched
      end in
    map (fun tags =>
           mkItem pl host fileCache [tags]
                  (List.filter (fun e => negb (String.eqb e tags)) allTags))
        targetTags
  else [mkItem pl host fileCache allTags []].

(** [true] when none of the three [continue]s is taken for the file. *)
Definition accepted (pl : Plugin) (host : Host) (mode : Mode)
    (fileCache : FileCache) : bool :=
  folderAccepted pl fileCache
  && negb (hasIgnoredDocTag pl (resolveTags pl host mode fileCache))
  && negb (searchRejects pl host fileCache (resolveTags pl host mode fileCache)).

(** The body of the [for] loop: the items pushed for one file. *)
Definition fileItems (pl : Plugin) (host : Host) (mode : Mode)
    (fileCache : FileCache) : list ViewItem :=
  if negb (folderAccepted pl fileCache) then []
  else
    let allTags := resolveTags pl host mode fileCache in
    if hasIgnoredDocTag pl allTags then []
    else if searchRejects pl host fileCache allTags then []
    else expandItems pl host mode fileCache (dropIgnoredTags pl allTags).

Definition itemsOf (pl : Plugin) (host : Host) (mode : Mode)
    (caches : list FileCache) : list ViewItem :=
  flat_map (fileItems pl host mode) caches.

Definition getItemsList (pl : Plugin) (host : Host) (mode : Mode) : list ViewItem :=
  itemsOf pl host mode (fileCaches pl).

(** ** Publishing the sorted list (main.ts 758-770) *)

(** [Array.prototype.sort] is stable; for a comparator that is a weak
    order every stable sort returns this list. *)
Fixpoint insertSorted {A} (cmp : A -> A -> Z) (x : A) (l : list A) : list A :=
  match l with
  | [] => [x]
  | y :: l' => if cmp x y <=? 0 then x :: l else y :: insertSorted cmp x l'
  end.

Definition sort {A} (cmp : A -> A -> Z) (l : list A) : list A :=
  fold_right (insertSorted cmp) [] l.

Definition applyFileInfoToView (pl : Plugin) (host : Host) : Plugin :=
  let items := getItemsList pl host TagMode in
  let itemsSorted := sort (compareItems pl) items in
  let pl1 := set_allViewItems pl itemsSorted in
  if h_linkView host then
    let itemsLink := getItemsList pl1 host LinkMode in
    set_allViewItemsByLink pl1 (sort (compareItems pl1) itemsLink)
  else pl1.

Definition hasMtime (m : Z) (item : ViewItem) : bool := vi_mtime item =? m.

(** [a] may stand before [b] in a list sorted by descending
    modification time. *)
Definition newerFirst (a b : ViewItem) : Prop := vi_mtime b <= vi_mtime a.

(** ** The change scheduler (main.ts 714-801)

    The scheduler is a state machine over the events the plugin reacts
    to.  Time is abstract: a timeout is pending from [setTimeout] until
    it is cleared or the event [TimerFire] runs its callback, so the
    notifications of one debounce window are those with no [TimerFire]
    between them.  A pass is in flight from the moment [loadFileInfos]
    gets past its guard until the event [PassEnd], which stands for its
    [finally] block; what the pass does to the caches and the views is
    [updateFileCaches] and [applyFileInfoToView] above, and only the
    [diffs] it was started with are logged here. *)

Module Scheduler.

Inductive Outcome := Returned | Threw.

Record State := {
  loadFileQueue : list TFile;
  (** the pending timeout, with its delay in milliseconds *)
  loadFileTimer : option Z;
  processingFileInfo : bool;
  (** passes in flight: entered the [try], not yet through [finally] *)
  running : nat;
  (** the [diffs] argument of every call of [loadFileInfos] so far *)
  calls : list (list TFile);
  (** the [diffs] of every call that got past the guard *)
  passes : list (list TFile)
}.

Definition initial : State :=
  {| loadFileQueue := []; loadFileTimer := None; processingFileInfo := false;
     running := 0; calls := []; passes := [] |}.

Definition inQueue (s : State) (diff : TFile) : bool :=
  existsb (fun e => String.eqb (f_path e) (f_path diff)) (loadFileQueue s).

(** [loadFileInfoAsync(diff)] for a defined [diff] (lines 783-800) *)
Definition enqueue (diff : TFile) (s : State) : State :=
  {| loadFileQueue :=
       if inQueue s diff then loadFileQueue s else loadFileQueue s ++ [diff];
     loadFileTimer := Some 200;
     processingFileInfo := processingFileInfo s;
     running := running s;
     calls := calls s;
     passes := passes s |}.

(** [diffs.forEach(e => void this.loadFileInfoAsync(e))] *)
Abbreviation enqueueAll files s :=
  (fold_left (fun acc e => enqueue e acc) files s).

(** [loadFileInfos(diffs)] up to its first [await]: behind the guard the
    pass is entered, and stays in flight until [finishPass]. *)
Definition loadFileInfos (diffs : list TFile) (s : State) : State :=
  let s1 :=
    {| loadFileQueue := loadFileQueue s; loadFileTimer := loadFileTimer s;
       processingFileInfo := processingFileInfo s; running := running s;
       calls := calls s ++ [diffs]; passes := passes s |} in
  if processingFileInfo s then
    enqueueAll diffs s1
  else
    {| loadFileQueue := loadFileQueue s1; loadFileTimer := loadFileTimer s1;
       processingFileInfo := true; running := S (running s1);
       calls := calls s1; passes := passes s1 ++ [diffs] |}.

(** The [finally] of the pass in flight, after it returned or threw. *)
Definition finishPass (o : Outcome) (s : State) : State :=
  {| loadFileQueue := loadFileQueue s; loadFileTimer := loadFileTimer s;
     processingFileInfo := false; running := pred (running s);
     calls := calls s; passes := passes s |}.

(** [loadFileInfoAsync(diff)] *)
Definition loadFileInfoAsync (diff : option TFile) (s : State) : State :=
  match diff with
  | None =>
      loadFileInfos []
        {| loadFileQueue := []; loadFileTimer := None;
           processingFileInfo := processingFileInfo s; running := running s;
           calls := calls s; passes := passes s |}
  | Some d => enqueue d s
  end.

(** The timeout callback (lines 792-800), run when the pending timer
    expires. *)
Definition timerFires (s : State) : State :=
  match loadFileTimer s with
  | None => s
  | Some _ =>
      let s1 :=
        {| loadFileQueue := loadFileQueue s; loadFileTimer := None;
           processingFileInfo := processingFileInfo s; running := running s;
           calls := calls s; passes := passes s |} in
      match loadFileQueue s1 with
      | [] => s1
      | diffs =>
          loadFileInfos diffs
            {| loadFileQueue := []; loadFileTimer := None;
               processingFileInfo := processingFileInfo s1;
               running := running s1;
               calls := calls s1; passes := passes s1 |}
      end
  end.

Inductive Event :=
| Notify (file : TFile)       (* a change notification for a file *)
| Refresh                     (* loadFileInfoAsync() without a file *)
| TimerFire                   (* the pending timeout expires *)
| PassEnd (o : Outcome).      (* the pass in flight returns or throws *)

Definition step (s : State) (e : Event) : State :=
  match e with
  | Notify file => loadFileInfoAsync (Some file) s
  | Refresh => loadFileInfoAsync None s
  | TimerFire => timerFires s
  | PassEnd o => finishPass o s
  end.

Definition run (s : State) (trace : list Event) : State :=
  fold_left step trace s.

(** The events that a burst of notifications is made of. *)
Definition isQueueing (e : Event) : bool :=
  match e with
  | Notify _ | TimerFire => true
  | Refresh | PassEnd _ => false
  end.

Definition queuedPaths (s : State) : list string :=
  map f_path (loadFileQueue s).

(** The flag is set exactly while one pass is in flight. *)
Definition flagMatches (s : State) : Prop :=
  running s = if processingFileInfo s then 1%nat else 0%nat.

End Scheduler.

(** ** Further parts of the plugin *)

(** *** Tag information edited from the tree menu
        (TagFolderViewBase, toggleObjectProp and the menu items) *)









(** *** Choosing the sort order (main.ts 1263-1271) *)

(** [`${x}`] for an array element that may be [undefined] *)
Definition elementText (l : list string) (n : nat) : string :=
  nth n l "undefined".

(** [setOrderMethod(key, order)]: the new [sortType]; a missing or empty
    argument is taken from the old setting. *)
Definition setOrderMethod (sortType : string) (key order : option string)
  : string :=
  let oldSetting := JS.split "_"%char sortType in
  let key' :=
    match key with
    | Some k => if String.eqb k EmptyString then elementText oldSetting 0 else k
    | None => elementText oldSetting 0
    end in
  let order' :=
    match order with
    | Some o => if String.eqb o EmptyString then elementText oldSetting 1 else o
    | None => elementText oldSetting 1
    end in
  key' +:+ "_" +:+ order'.

(** *** Matching the items of a scroll view (main.ts 851-862) *)

Definition scrollTagMatches (tag : string) (item : ViewItem) : bool :=
  existsb
    (fun itemTag =>
       String.eqb itemTag (JS.toLowerCase tag) ||
       JS.startsWith (itemTag +:+ "/")
         (JS.toLowerCase tag +:+
          (if JS.endsWith tag "/" then EmptyString else "/")))
    (map JS.toLowerCase (vi_tags item)).

(** The loop over [tags = tagPath.split(', ')] *)
Definition matchedFiles (items : list ViewItem) (tags : list string)
  : list ViewItem :=
  fold_left (fun matched tag => List.filter (scrollTagMatches tag) matched)
            tags items.

(** *** Renaming a tag (main.ts 1157-1182) *)

Definition carriesTag (tag : string) (e : ViewItem) : bool :=
  JS.includes (vi_tags e) tag && negb (JS.includes (vi_tags e) "_untagged").

(** [newItems]: the path of every note to rewrite with its new tags,
    [[...new Set([newTag, ...i.extraTags])].sort()]. *)
Definition renameTagItems (pl : Plugin) (host : Host) (tag newTag : string)
  : list (string * list string) :=
  if String.eqb newTag EmptyString then []
  else if String.eqb tag newTag then []
  else
    map (fun i => (vi_path i,
                   sort codeUnitCompare (JS.unique (newTag :: vi_extraTags i))))
        (List.filter (carriesTag tag) (getItemsList pl host TagMode)).

(** The frontmatter writes of [renameTag]: the file, the key written and
    the tags it gets. *)
Definition renameTag (pl : Plugin) (host : Host) (tag newTag : string)
  : list (TFile * string * list string) :=
  let key :=
    if String.eqb (customTagKey (settings pl)) EmptyString then "tags"
    else customTagKey (settings pl) in
  omap (fun item =>
          match getAbstractFileByPath host (fst item) with
          | Some file => Some (file, key, snd item)
          | None => None
          end)
       (renameTagItems pl host tag newTag).

(** *** Vocabulary of the properties *)

(** No two tags of the list are equal up to case. *)
Definition caseDistinct (tags : list string) : Prop :=
  List.NoDup (map JS.toLowerCase tags).

Definition cachePaths (caches : list FileCache) : list string :=
  map (fun c => f_path (fc_file c)) caches.

(** The string holds no separator: it splits into itself. *)
Definition noSeparator (sep : ascii) (s : string) : Prop :=
  JS.split sep s = [s].

(** ** Well-formedness of the scheduler's state *)

Definition distinctPaths (files : list TFile) : Prop :=
  List.NoDup (map f_path files).

(** Whatever is queued has a timeout pending that will pick it up. *)
Definition queueArmed (s : Scheduler.State) : Prop :=
  Scheduler.loadFileQueue s = [] \/ Scheduler.loadFileTimer s = Some 200.

Definition wellFormed (s : Scheduler.State) : Prop :=
  distinctPaths (Scheduler.loadFileQueue s) /\
  queueArmed s /\
  Forall distinctPaths (Scheduler.calls s) /\
  Forall distinctPaths (Scheduler.passes s).

(** The files the notifications of a trace were about. *)
Definition notified (trace : list Scheduler.Event) : list TFile :=
  flat_map (fun e => match e with Scheduler.Notify f => [f] | _ => [] end) trace.

(** Every file the scheduler holds or has handed to [loadFileInfos]
    is one of [known]. *)
Definition onlyFrom (known : list TFile) (s : Scheduler.State) : Prop :=
  incl (Scheduler.loadFileQueue s) known /\
  Forall (fun diffs => incl diffs known) (Scheduler.calls s) /\
  Forall (fun diffs => incl diffs known) (Scheduler.passes s).

(** ** Concrete vaults and settings used by the examples *)

Module Examples.

Definition baseSettings : TagFolderSettings :=
  {| displayMethod := NAME; useTitle := true; frontmatterKey := "title";
     customTagKey := EmptyString; sortType := "DISPNAME_ASC";
     ignoreDocTags := EmptyString; ignoreTags := EmptyString; ignoreFolders := EmptyString;
     targetFolders := EmptyString; archiveTags := EmptyString;
     useTagInfo := false; disableNestedTags := false;
     disableNarrowingDown := false; useVirtualTag := false;
     displayFolderAsTag := false |}.

Definition withSortType (s : TagFolderSettings) (v : string) : TagFolderSettings :=
  {| displayMethod := displayMethod s; useTitle := useTitle s;
     frontmatterKey := frontmatterKey s; customTagKey := customTagKey s;
     sortType := v;
     ignoreDocTags := ignoreDocTags s; ignoreTags := ignoreTags s;
     ignoreFolders := ignoreFolders s; targetFolders := targetFolders s;
     archiveTags := archiveTags s; useTagInfo := useTagInfo s;
     disableNestedTags := disableNestedTags s;
     disableNarrowingDown := disableNarrowingDown s;
     useVirtualTag := useVirtualTag s;
     displayFolderAsTag := displayFolderAsTag s |}.

Definition withNarrowing (s : TagFolderSettings) (disable : bool)
    (archive : string) : TagFolderSettings :=
  {| displayMethod := displayMethod s; useTitle := useTitle s;
     frontmatterKey := frontmatterKey s; customTagKey := customTagKey s;
     sortType := sortType s;
     ignoreDocTags := ignoreDocTags s; ignoreTags := ignoreTags s;
     ignoreFolders := ignoreFolders s; targetFolders := targetFolders s;
     archiveTags := archive; useTagInfo := useTagInfo s;
     disableNestedTags := disableNestedTags s;
     disableNarrowingDown := disable;
     useVirtualTag := useVirtualTag s;
     displayFolderAsTag := displayFolderAsTag s |}.

Definition withIgnoreTags (s : TagFolderSettings) (v : string) : TagFolderSettings :=
  {| displayMethod := displayMethod s; useTitle := useTitle s;
     frontmatterKey := frontmatterKey s; customTagKey := customTagKey s;
     sortType := sortType s;
     ignoreDocTags := ignoreDocTags s; ignoreTags := v;
     ignoreFolders := ignoreFolders s; targetFolders := targetFolders s;
     archiveTags := archiveTags s; useTagInfo := useTagInfo s;
     disableNestedTags := disableNestedTags s;
     disableNarrowingDown := disableNarrowingDown s;
     useVirtualTag := useVirtualTag s;
     displayFolderAsTag := displayFolderAsTag s |}.

Definition withFolders (s : TagFolderSettings) (targets ignores : string)
  : TagFolderSettings :=
  {| displayMethod := displayMethod s; useTitle := useTitle s;
     frontmatterKey := frontmatterKey s; customTagKey := customTagKey s;
     sortType := sortType s;
     ignoreDocTags := ignoreDocTags s; ignoreTags := ignoreTags s;
     ignoreFolders := ignores; targetFolders := targets;
     archiveTags := archiveTags s; useTagInfo := useTagInfo s;
     disableNestedTags := disableNestedTags s;
     disableNarrowingDown := disableNarrowingDown s;
     useVirtualTag := useVirtualTag s;
     displayFolderAsTag := displayFolderAsTag s |}.


Definition mdFile (path basename : string) (mtime : Z) : TFile :=
  {| f_path := path; f_basename := basename; f_extension := "md";
     f_stat := {| st_mtime := mtime; st_ctime := mtime |} |}.

Definition tagged (file : TFile) (tags : list string) : FileCache :=
  {| fc_file := file; fc_links := []; fc_tags := tags |}.

Definition metadataWithTags (tags : list string) : CachedMetadata :=
  {| md_allTags := Some tags; md_frontmatter := None;
     md_dotted := fun _ => None; md_headings := None |}.

(** A vault without metadata and without a link view. *)
Definition bareHost : Host :=
  {| h_now := 1000000; h_linkView := false; h_files := [];
     h_getFileCache := fun _ => None;
     h_parseAllReference := fun _ => [];
     h_secondsToFreshness := fun _ => "older" |}.

Definition pluginOf (s : TagFolderSettings) (info : gmap string TagInfo)
    (caches : list FileCache) : Plugin :=
  {| settings := s; tagInfo := info; searchString := EmptyString;
     fileCaches := caches; oldFileCache := None; parsedFileCache := ∅;
     compareItems := getCompareMethodItems codeUnitCompare s;
     allViewItems := []; allViewItemsByLink := [] |}.


Definition note : TFile := mdFile "notes/n.md" "n" 5.
Definition notePQR : FileCache := tagged note ["#p"; "#q"; "#r"].

Definition itemNamed (name : string) : ViewItem :=
  {| vi_tags := []; vi_extraTags := []; vi_path := name;
     vi_displayName := name; vi_ancestors := []; vi_mtime := 0;
     vi_ctime := 0; vi_filename := name; vi_links := [] |}.

(** One note tagged [#p #q #r], listed with the toggle off and on, and
    with [q] as an archive tag. *)
Definition pqrPlugin (disable : bool) (archive : string) : Plugin :=
  pluginOf (withNarrowing baseSettings disable archive) ∅ [notePQR].

(** A note without tags. *)
Definition noteBare : FileCache := tagged note [].
Definition barePlugin : Plugin := pluginOf baseSettings ∅ [noteBare].




(** Two notes with the same modification time, scanned in either order. *)
Definition tieA : FileCache := tagged (mdFile "a.md" "a" 5) ["#t"].
Definition tieB : FileCache := tagged (mdFile "b.md" "b" 5) ["#t"].
Definition tiePlugin (caches : list FileCache) : Plugin :=
  pluginOf (withSortType baseSettings "MTIME_DESC") ∅ caches.

(** A vault of two notes, one with modification time 0, both cached. *)
Definition fileZero : TFile := mdFile "zero.md" "zero" 0.
Definition fileFive : TFile := mdFile "five.md" "five" 5.
Definition rescanHost : Host :=
  {| h_now := 1000000; h_linkView := false;
     h_files := [fileZero; fileFive];
     h_getFileCache := fun _ => Some (metadataWithTags ["#x"]);
     h_parseAllReference := fun _ => [];
     h_secondsToFreshness := fun _ => "older" |}.
Definition rescanPlugin : Plugin :=
  pluginOf baseSettings ∅ [tagged fileZero ["#x"]; tagged fileFive ["#x"]].
(** The same plugin, had the modification time of [five.md] been
    recorded. *)
Definition recordedPlugin : Plugin :=
  {| settings := baseSettings; tagInfo := ∅; searchString := EmptyString;
     fileCaches := [tagged fileZero ["#x"]; tagged fileFive ["#x"]];
     oldFileCache := None; parsedFileCache := {["five.md" := 5]};
     compareItems := getCompareMethodItems codeUnitCompare baseSettings;
     allViewItems := []; allViewItemsByLink := [] |}.

Definition fileA : TFile := mdFile "a.md" "a" 5.
Definition fileB : TFile := mdFile "b.md" "b" 6.

(** A change of [b.md] is notified while the pass for [a.md] is in
    flight, then a refresh without a file is requested, then the pass
    ends and the timer, if any, expires. *)
Definition refreshDuringPass : list Scheduler.Event :=
  [Scheduler.Notify fileA; Scheduler.TimerFire;
   Scheduler.Notify fileB; Scheduler.Refresh;
   Scheduler.PassEnd Scheduler.Returned; Scheduler.TimerFire].

(** A state in which the pass for [a.md] is in flight. *)
Definition busyState : Scheduler.State :=
  Scheduler.run Scheduler.initial [Scheduler.Notify fileA; Scheduler.TimerFire].

(** Two notes that link to each other, seen by an open link view; the
    cache still holds them without links. *)
Definition cycleHost : Host :=
  {| h_now := 1000000; h_linkView := true;
     h_files := [fileA; fileB];
     h_getFileCache := fun _ => Some (metadataWithTags ["#x"]);
     h_parseAllReference :=
       fun p => if String.eqb p "a.md" then ["b.md"]
                else if String.eqb p "b.md" then ["a.md"] else [];
     h_secondsToFreshness := fun _ => "older" |}.
Definition cyclePlugin : Plugin :=
  pluginOf baseSettings ∅ [tagged fileA ["#x"]; tagged fileB ["#x"]].

(** A note that lies in a target folder and in an ignored folder. *)
Definition privateNote : FileCache :=
  tagged (mdFile "Templates/Private/x.md" "x" 7) ["#draft"].

Definition folderPlugin : Plugin :=
  pluginOf (withFolders baseSettings "Templates" "templates/private")
           ∅ [privateNote].

End Examples.

(** ** Further settings and notes used by the examples *)

Module Scenes.

Definition withDisplayMethod (s : TagFolderSettings) (v : DISPLAY_METHOD)
  : TagFolderSettings :=
  {| displayMethod := v; useTitle := useTitle s;
     frontmatterKey := frontmatterKey s; customTagKey := customTagKey s;
     sortType := sortType s;
     ignoreDocTags := ignoreDocTags s; ignoreTags := ignoreTags s;
     ignoreFolders := ignoreFolders s; targetFolders := targetFolders s;
     archiveTags := archiveTags s; useTagInfo := useTagInfo s;
     disableNestedTags := disableNestedTags s;
     disableNarrowingDown := disableNarrowingDown s;
     useVirtualTag := useVirtualTag s;
     displayFolderAsTag := displayFolderAsTag s |}.




(** A plugin that shows the folder before the name. *)
Definition pathNamePlugin : Plugin :=
  Examples.pluginOf (withDisplayMethod Examples.baseSettings PATH_NAME) ∅ [].

(** [q] is an ignored tag of the note tagged [#p #q #r]. *)
Definition ignoreQPlugin : Plugin :=
  Examples.pluginOf (Examples.withIgnoreTags Examples.baseSettings "q") ∅
                    [Examples.notePQR].





(** An item of the scroll view's list, tagged [p/q]. *)
Definition nestedItem : ViewItem :=
  {| vi_tags := ["p/q"]; vi_extraTags := []; vi_path := "n.md";
     vi_displayName := "n"; vi_ancestors := []; vi_mtime := 0;
     vi_ctime := 0; vi_filename := "n"; vi_links := [] |}.

End Scenes.

(** * Properties *)

(** ** Comparator *)

Lemma isOneOf_false (s : string) (cases : list string) :
  ~ In s cases -> isOneOf s cases = false.
Proof.
  intros Hnot. unfold isOneOf.
  destruct (existsb (String.eqb s) cases) eqn:E; [|reflexivity].
  apply existsb_exists in E as [c [Hin Heq]].
  apply String.eqb_eq in Heq. subst c. contradiction.
Qed.

Lemma unrecognized_default (compare : string -> string -> Z)
    (st : TagFolderSettings) :
  ~ In (sortType st) recognizedSortTypes ->
  getCompareMethodItems compare st =
  fun a b => compare (vi_displayName a) (vi_displayName b) * invertOf (sortType st).
Proof.
  intros Hnot. unfold getCompareMethodItems.
  rewrite !isOneOf_false; [reflexivity|..];
    intros Hin; apply Hnot; unfold recognizedSortTypes; simpl in *; tauto.
Qed.

(** C3 (as amended): for a sort type outside the recognized ones the
    comparator compares display names and multiplies by the direction
    read off the string: it is [compare] on the display names when the
    string has no ["_DESC"] in it and the negated [compare] when it has.
    The function is total: there is no input on which it fails. *)
Theorem getCompareMethodItems_fallback (compare : string -> string -> Z)
    (st : TagFolderSettings) (a b : ViewItem) :
  ~ In (sortType st) recognizedSortTypes ->
  getCompareMethodItems compare st a b =
    (if JS.contains (sortType st) "_DESC"
     then - compare (vi_displayName a) (vi_displayName b)
     else compare (vi_displayName a) (vi_displayName b)).
Proof.
  intros Hnot. rewrite (unrecognized_default compare st Hnot).
  unfold invertOf. destruct (JS.contains (sortType st) "_DESC"); lia.
Qed.

Lemma getCompareMethodItems_fallback_witness :
  ~ In "corrupted" recognizedSortTypes /\
  getCompareMethodItems codeUnitCompare
    (Examples.withSortType Examples.baseSettings "corrupted")
    (Examples.itemNamed "a") (Examples.itemNamed "b") = -1.
Proof.
  assert (Hnot : ~ In "corrupted" recognizedSortTypes).
  { simpl. intros H. repeat (destruct H as [H|H]; [discriminate H|]). exact H. }
  split; [exact Hnot|].
  rewrite (getCompareMethodItems_fallback codeUnitCompare
             (Examples.withSortType Examples.baseSettings "corrupted")
             (Examples.itemNamed "a") (Examples.itemNamed "b") Hnot).
  reflexivity.
Defined.

(** C3 (as stated) fails: ["FOO_DESC"] is not a recognized sort type, and
    the comparator returned for it orders display names descending. *)
Lemma getCompareMethodItems_fallback_not_ascending :
  ~ In "FOO_DESC" recognizedSortTypes /\
  getCompareMethodItems codeUnitCompare
    (Examples.withSortType Examples.baseSettings "FOO_DESC")
    (Examples.itemNamed "a") (Examples.itemNamed "b") = 1 /\
  codeUnitCompare (vi_displayName (Examples.itemNamed "a"))
                  (vi_displayName (Examples.itemNamed "b")) = -1.
Proof.
  split; [|split; reflexivity].
  simpl. intros H. repeat (destruct H as [H|H]; [discriminate H|]). exact H.
Qed.

(** ** Item list: folders *)



Lemma expandItems_path (pl : Plugin) (host : Host) (mode : Mode)
    (fc : FileCache) (tags : list string) (item : ViewItem) :
  In item (expandItems pl host mode fc tags) ->
  vi_path item = f_path (fc_file fc).
Proof.
  unfold expandItems.
  destruct (disableNarrowingDown (settings pl) && isTagMode mode).
  - intros Hin. apply in_map_iff in Hin as [t [<- _]]. reflexivity.
  - intros [<-|[]]. reflexivity.
Qed.

(** Every listed item comes from a file that went past the folder checks. *)
Lemma fileItems_accepted (pl : Plugin) (host : Host) (mode : Mode)
    (fc : FileCache) (item : ViewItem) :
  In item (fileItems pl host mode fc) ->
  vi_path item = f_path (fc_file fc) /\ folderAccepted pl fc = true.
Proof.
  unfold fileItems. destruct (folderAccepted pl fc); simpl; [|intros []].
  destruct (hasIgnoredDocTag pl _); [intros []|].
  destruct (searchRejects pl host fc _); [intros []|].
  intros Hin. split; [|reflexivity]. eapply expandItems_path; eassumption.
Qed.

Lemma folderAccepted_path (pl : Plugin) (fc fc' : FileCache) :
  f_path (fc_file fc) = f_path (fc_file fc') ->
  folderAccepted pl fc = folderAccepted pl fc'.
Proof. unfold folderAccepted. intros ->. reflexivity. Qed.

Lemma pathHasPrefixIn_true (folders : list string) (path e : string) :
  In e folders -> e <> EmptyString -> JS.startsWith (JS.toLowerCase path) e = true ->
  pathHasPrefixIn folders path = true.
Proof.
  intros Hin Hne Hpre. unfold pathHasPrefixIn. apply existsb_exists.
  exists e. split; [exact Hin|]. rewrite Hpre.
  destruct (String.eqb_spec e EmptyString); [contradiction|reflexivity].
Qed.

Lemma pathHasPrefixIn_false (folders : list string) (path : string) :
  (forall e, In e folders -> JS.startsWith (JS.toLowerCase path) e = false) ->
  pathHasPrefixIn folders path = false.
Proof.
  intros Hall. unfold pathHasPrefixIn.
  destruct (existsb _ folders) eqn:E; [|reflexivity].
  apply existsb_exists in E as [e [Hin He]].
  rewrite (Hall e Hin) in He. rewrite andb_false_r in He. discriminate.
Qed.

Lemma parseFolderList_nonempty (s e : string) :
  In e (parseFolderList s) -> e <> EmptyString.
Proof.
  unfold parseFolderList. intros Hin. apply filter_In in Hin as [_ Hne].
  intros ->. discriminate Hne.
Qed.

(** C10: a file whose lower-cased path starts with an entry of the
    ignore-folders list yields no item, whatever the target-folders list
    says; and when the target-folders list has entries, a file whose path
    starts with none of them yields no item, whatever the ignore-folders
    list says.  No item of the returned list carries such a file's path. *)
Theorem getItemsList_folder_precedence (pl : Plugin) (host : Host)
    (mode : Mode) (fc : FileCache) :
  (exists e, In e (parseFolderList (ignoreFolders (settings pl))) /\
             JS.startsWith (JS.toLowerCase (f_path (fc_file fc))) e = true)
  \/ (parseFolderList (targetFolders (settings pl)) <> [] /\
      forall e, In e (parseFolderList (targetFolders (settings pl))) ->
                JS.startsWith (JS.toLowerCase (f_path (fc_file fc))) e = false) ->
  fileItems pl host mode fc = [] /\
  forall item, In item (getItemsList pl host mode) ->
               vi_path item <> f_path (fc_file fc).
Proof.
  intros Hcase.
  assert (Hrej : folderAccepted pl fc = false).
  { unfold folderAccepted. destruct Hcase as [[e [Hin Hpre]]|[Hne Hall]].
    - rewrite (pathHasPrefixIn_true _ _ e Hin (parseFolderList_nonempty _ _ Hin) Hpre).
      apply andb_false_r.
    - rewrite (pathHasPrefixIn_false _ _ Hall).
      destruct (parseFolderList (targetFolders (settings pl))); [contradiction|].
      reflexivity. }
  split.
  - unfold fileItems. rewrite Hrej. reflexivity.
  - intros item Hin Hpath. unfold getItemsList, itemsOf in Hin.
    apply in_flat_map in Hin as [fc' [_ Hin]].
    apply fileItems_accepted in Hin as [Hp Hacc].
    rewrite (folderAccepted_path pl fc' fc) in Hacc by congruence.
    congruence.
Qed.

Lemma getItemsList_folder_precedence_witness :
  (exists e,
      In e (parseFolderList (ignoreFolders (settings Examples.folderPlugin))) /\
      JS.startsWith
        (JS.toLowerCase (f_path (fc_file Examples.privateNote))) e = true) /\
  pathHasPrefixIn (parseFolderList (targetFolders (settings Examples.folderPlugin)))
                  (f_path (fc_file Examples.privateNote)) = true /\
  fileItems Examples.folderPlugin Examples.bareHost TagMode Examples.privateNote = [] /\
  forall item,
    In item (getItemsList Examples.folderPlugin Examples.bareHost TagMode) ->
    vi_path item <> f_path (fc_file Examples.privateNote).
Proof.
  assert (Hign : exists e,
      In e (parseFolderList (ignoreFolders (settings Examples.folderPlugin))) /\
      JS.startsWith
        (JS.toLowerCase (f_path (fc_file Examples.privateNote))) e = true).
  { exists "templates/private". split; [left; reflexivity|reflexivity]. }
  split; [exact Hign|]. split; [reflexivity|].
  exact (getItemsList_folder_precedence Examples.folderPlugin Examples.bareHost
           TagMode Examples.privateNote (or_introl Hign)).
Defined.

(** ** Item list: tags *)

Lemma includes_In (arr : list string) (x : string) :
  JS.includes arr x = true <-> In x arr.
Proof.
  unfold JS.includes. rewrite existsb_exists. split.
  - intros [y [Hin Heq]]. apply String.eqb_eq in Heq. subst y. exact Hin.
  - intros Hin. exists x. split; [exact Hin|apply String.eqb_refl].
Qed.

Lemma uniqueCaseAcc_fresh (seen pieces : list string) :
  List.NoDup (map JS.toLowerCase (JS.uniqueCaseAcc seen pieces)) /\
  forall x, In x (JS.uniqueCaseAcc seen pieces) -> ~ In (JS.toLowerCase x) seen.
Proof.
  revert seen. induction pieces as [|x rest IH]; intros seen; simpl.
  - split; [constructor|intros x []].
  - destruct (JS.includes seen (JS.toLowerCase x)) eqn:E.
    + apply IH.
    + destruct (IH (JS.toLowerCase x :: seen)) as [Hnd Hfresh].
      assert (Hx : ~ In (JS.toLowerCase x) seen).
      { intros Hin. apply includes_In in Hin. congruence. }
      split.
      * simpl. constructor; [|exact Hnd].
        intros Hin. apply in_map_iff in Hin as [y [Hy Hin]].
        apply (Hfresh y Hin). left. symmetry. exact Hy.
      * intros y [<-|Hin]; [exact Hx|].
        intros Hseen. apply (Hfresh y Hin). right. exact Hseen.
Qed.


















(** ** Sorting the published list *)

Section SortByMtimeDescending.

Variable cmp : ViewItem -> ViewItem -> Z.
Hypothesis cmp_mtime : forall a b, cmp a b = (vi_mtime a - vi_mtime b) * -1.

Lemma insertSorted_perm (x : ViewItem) (l : list ViewItem) :
  Permutation (x :: l) (insertSorted cmp x l).
Proof.
  induction l as [|y l IH]; simpl; [reflexivity|].
  destruct (cmp x y <=? 0); [reflexivity|].
  rewrite perm_swap. apply perm_skip. exact IH.
Qed.

Lemma sort_perm (l : list ViewItem) : Permutation l (sort cmp l).
Proof.
  induction l as [|x l IH]; simpl; [reflexivity|].
  rewrite <- insertSorted_perm. apply perm_skip. exact IH.
Qed.

Lemma insertSorted_sorted (x : ViewItem) (l : list ViewItem) :
  StronglySorted newerFirst l -> StronglySorted newerFirst (insertSorted cmp x l).
Proof.
  induction l as [|y l IH]; intros Hs; simpl.
  - constructor; constructor.
  - inversion Hs as [|? ? Hl Hy]; subst.
    destruct (Z.leb_spec (cmp x y) 0) as [Hle|Hgt]; rewrite cmp_mtime in *.
    + constructor; [exact Hs|].
      constructor; [unfold newerFirst; lia|].
      eapply List.Forall_impl; [|exact Hy].
      unfold newerFirst. intros z Hz. lia.
    + constructor; [apply IH; exact Hl|].
      eapply Permutation.Permutation_Forall; [apply insertSorted_perm|].
      constructor; [unfold newerFirst; lia|exact Hy].
Qed.

Lemma sort_sorted (l : list ViewItem) : StronglySorted newerFirst (sort cmp l).
Proof.
  induction l as [|x l IH]; simpl; [constructor|].
  apply insertSorted_sorted. exact IH.
Qed.

(** Inserting an item leaves the items of each modification time in the
    order they had, with the new item in front of its equals. *)
Lemma insertSorted_stable (m : Z) (x : ViewItem) (l : list ViewItem) :
  List.filter (hasMtime m) (insertSorted cmp x l) =
  List.filter (hasMtime m) (x :: l).
Proof.
  induction l as [|y l IH]; [reflexivity|].
  simpl insertSorted.
  destruct (Z.leb_spec (cmp x y) 0) as [Hle|Hgt]; [reflexivity|].
  rewrite cmp_mtime in Hgt.
  change (List.filter (hasMtime m) (y :: insertSorted cmp x l))
    with (if hasMtime m y
          then y :: List.filter (hasMtime m) (insertSorted cmp x l)
          else List.filter (hasMtime m) (insertSorted cmp x l)).
  rewrite IH. simpl. unfold hasMtime.
  destruct (Z.eqb_spec (vi_mtime x) m), (Z.eqb_spec (vi_mtime y) m);
    try reflexivity; lia.
Qed.

Lemma sort_stable (m : Z) (l : list ViewItem) :
  List.filter (hasMtime m) (sort cmp l) = List.filter (hasMtime m) l.
Proof.
  induction l as [|x l IH]; [reflexivity|].
  simpl sort. rewrite insertSorted_stable. simpl. rewrite IH. reflexivity.
Qed.

End SortByMtimeDescending.

Lemma getCompareMethodItems_mtime_desc (compare : string -> string -> Z)
    (st : TagFolderSettings) (a b : ViewItem) :
  sortType st = "MTIME_DESC" ->
  getCompareMethodItems compare st a b = (vi_mtime a - vi_mtime b) * -1.
Proof. unfold getCompareMethodItems. intros ->. reflexivity. Qed.

Lemma applyFileInfoToView_allViewItems (pl : Plugin) (host : Host) :
  allViewItems (applyFileInfoToView pl host) =
  sort (compareItems pl) (getItemsList pl host TagMode).
Proof.
  unfold applyFileInfoToView. destruct (h_linkView host); reflexivity.
Qed.

(** C4 (as amended): with sort type ["MTIME_DESC"] the published list is
    a rearrangement of the item list in which no item comes before one
    with a later modification time, and the items that share a
    modification time stay in the order in which [getItemsList] produced
    them, which is the order of the scanned file caches. *)
Theorem applyFileInfoToView_mtime_desc (compare : string -> string -> Z)
    (pl : Plugin) (host : Host) :
  sortType (settings pl) = "MTIME_DESC" ->
  (forall a b, compareItems pl a b = getCompareMethodItems compare (settings pl) a b) ->
  StronglySorted newerFirst (allViewItems (applyFileInfoToView pl host)) /\
  Permutation (getItemsList pl host TagMode)
              (allViewItems (applyFileInfoToView pl host)) /\
  forall m,
    List.filter (hasMtime m) (allViewItems (applyFileInfoToView pl host)) =
    List.filter (hasMtime m) (getItemsList pl host TagMode).
Proof.
  intros Hsort Hcmp.
  assert (Hm : forall a b, compareItems pl a b = (vi_mtime a - vi_mtime b) * -1).
  { intros a b. rewrite Hcmp.
    apply getCompareMethodItems_mtime_desc. exact Hsort. }
  rewrite applyFileInfoToView_allViewItems.
  split; [|split].
  - apply sort_sorted. exact Hm.
  - apply sort_perm.
  - intros m. apply sort_stable. exact Hm.
Qed.

Lemma applyFileInfoToView_mtime_desc_witness :
  sortType (settings (Examples.tiePlugin [Examples.tieA; Examples.tieB]))
    = "MTIME_DESC" /\
  StronglySorted newerFirst
    (allViewItems (applyFileInfoToView
       (Examples.tiePlugin [Examples.tieA; Examples.tieB]) Examples.bareHost)).
Proof.
  split; [reflexivity|].
  exact (proj1 (applyFileInfoToView_mtime_desc codeUnitCompare
                  (Examples.tiePlugin [Examples.tieA; Examples.tieB])
                  Examples.bareHost eq_refl (fun a b => eq_refl))).
Defined.

(** C4 (as stated) fails: two notes with the same modification time are
    published in the order in which their file caches were scanned, so
    the same two items come out in either order. *)
Lemma applyFileInfoToView_ties_follow_scan_order :
  map vi_mtime
      (getItemsList (Examples.tiePlugin [Examples.tieA; Examples.tieB])
                    Examples.bareHost TagMode) = [5; 5] /\
  map vi_path
      (allViewItems (applyFileInfoToView
         (Examples.tiePlugin [Examples.tieA; Examples.tieB]) Examples.bareHost))
    = ["a.md"; "b.md"] /\
  map vi_path
      (allViewItems (applyFileInfoToView
         (Examples.tiePlugin [Examples.tieB; Examples.tieA]) Examples.bareHost))
    = ["b.md"; "a.md"].
Proof. repeat split; vm_compute; reflexivity. Qed.

(** ** Full rescan *)

Lemma isFileCacheChanged_parsedFileCache (pl : Plugin) :
  parsedFileCache (fst (isFileCacheChanged pl)) = parsedFileCache pl.
Proof. unfold isFileCacheChanged. case_bool_decide; reflexivity. Qed.

(** Nothing in the cache code writes [parsedFileCache]. *)
Lemma updateFileCaches_parsedFileCache (pl : Plugin) (host : Host)
    (diffs : list (option TFile)) :
  parsedFileCache (fst (updateFileCaches pl host diffs)) = parsedFileCache pl.
Proof.
  unfold updateFileCaches, updateFileCachesAll.
  destruct ((length (fileCaches pl) =? 0)%nat || (length diffs =? 0)%nat).
  - rewrite isFileCacheChanged_parsedFileCache. reflexivity.
  - destruct (sweep _ _ _ _ _ _) as [[c u]|]; reflexivity.
Qed.

(** With nothing recorded, the rescan processes exactly the files whose
    modification time is not 0. *)
Lemma processFiles_nothing_recorded (pl : Plugin) (host : Host) :
  parsedFileCache pl = ∅ ->
  processFiles pl host =
  List.filter (fun f => negb (0 =? st_mtime (f_stat f))) (filesAll host).
Proof.
  intros Hempty. unfold processFiles. apply filter_ext. intros f.
  unfold needsProcessing. rewrite Hempty, lookup_empty. reflexivity.
Qed.

(** C6: the rescan of a vault of two cached notes, called without diffs.
    [five.md] has the modification time it had, and is processed again;
    [zero.md], whose modification time 0 equals the value read for it
    from [parsedFileCache], is skipped and its cache entry is gone
    afterwards; nothing is recorded by the rescan; and had 5 been
    recorded for [five.md], it would be processed all the same. *)
Theorem updateFileCaches_rescan_skips_nothing :
  processFiles Examples.rescanPlugin Examples.rescanHost = [Examples.fileFive] /\
  fileCaches (fst (updateFileCaches Examples.rescanPlugin Examples.rescanHost []))
    = [Examples.tagged Examples.fileFive ["#x"]] /\
  parsedFileCache
    (fst (updateFileCaches Examples.rescanPlugin Examples.rescanHost [])) = ∅ /\
  parsedFileCache Examples.recordedPlugin !! "five.md"
    = Some (st_mtime (f_stat Examples.fileFive)) /\
  needsProcessing Examples.recordedPlugin Examples.fileFive = true.
Proof.
  split; [reflexivity|]. split; [reflexivity|].
  split; [apply updateFileCaches_parsedFileCache|].
  split; reflexivity.
Qed.

(** ** The change scheduler *)

Lemma NoDup_app_disjoint {A} (l1 l2 : list A) :
  List.NoDup (l1 ++ l2) -> forall x, In x l1 -> ~ In x l2.
Proof.
  induction l1 as [|a l1 IH]; simpl; intros Hnd x Hx; [destruct Hx|].
  inversion Hnd as [|? ? Ha Hrest]; subst.
  destruct Hx as [<-|Hx].
  - intros H2. apply Ha. apply in_or_app. now right.
  - apply IH; assumption.
Qed.

Module SchedulerFacts.
Import Scheduler.

Lemma run_app (s : State) (t1 t2 : list Event) :
  run s (t1 ++ t2) = run (run s t1) t2.
Proof. unfold run. apply fold_left_app. Qed.

Lemma run_notify (files : list TFile) (s : State) :
  run s (map Notify files) = enqueueAll files s.
Proof.
  revert s. induction files as [|f files IH]; intros s; [reflexivity|].
  simpl. apply IH.
Qed.

Lemma inQueue_In (s : State) (f : TFile) :
  inQueue s f = true <-> In (f_path f) (queuedPaths s).
Proof.
  unfold inQueue, queuedPaths. rewrite existsb_exists, in_map_iff. split.
  - intros [e [Hin Heq]]. apply String.eqb_eq in Heq. eauto.
  - intros [e [Heq Hin]]. exists e. split; [exact Hin|].
    apply String.eqb_eq. exact Heq.
Qed.

Lemma queuedPaths_enqueue (f : TFile) (s : State) :
  queuedPaths (enqueue f s) =
  if inQueue s f then queuedPaths s else queuedPaths s ++ [f_path f].
Proof.
  unfold queuedPaths, enqueue. simpl.
  destruct (inQueue s f); [reflexivity|]. apply map_app.
Qed.

Lemma enqueue_NoDup (f : TFile) (s : State) :
  List.NoDup (queuedPaths s) -> List.NoDup (queuedPaths (enqueue f s)).
Proof.
  intros Hnd. rewrite queuedPaths_enqueue.
  destruct (inQueue s f) eqn:E; [exact Hnd|].
  apply List.NoDup_app; [exact Hnd| |].
  - constructor; [intros []|constructor].
  - intros x Hx [<-|[]]. apply inQueue_In in Hx. congruence.
Qed.

Lemma enqueue_keeps (f : TFile) (s : State) (p : string) :
  In p (queuedPaths s) -> In p (queuedPaths (enqueue f s)).
Proof.
  intros Hin. rewrite queuedPaths_enqueue.
  destruct (inQueue s f); [exact Hin|]. apply in_or_app. now left.
Qed.

Lemma enqueue_queued (f : TFile) (s : State) :
  In (f_path f) (queuedPaths (enqueue f s)).
Proof.
  rewrite queuedPaths_enqueue. destruct (inQueue s f) eqn:E.
  - apply inQueue_In. exact E.
  - apply in_or_app. right. now left.
Qed.

(** What a run of [loadFileInfoAsync(e)] over [files] leaves unchanged
    and what it has queued. *)
Lemma enqueueAll_frame (files : list TFile) (s : State) :
  calls (enqueueAll files s) = calls s /\
  passes (enqueueAll files s) = passes s /\
  processingFileInfo (enqueueAll files s) = processingFileInfo s /\
  running (enqueueAll files s) = running s /\
  (files <> [] -> loadFileTimer (enqueueAll files s) = Some 200) /\
  (List.NoDup (queuedPaths s) -> List.NoDup (queuedPaths (enqueueAll files s))) /\
  (forall p, In p (queuedPaths s) -> In p (queuedPaths (enqueueAll files s))) /\
  (forall f, In f files -> In (f_path f) (queuedPaths (enqueueAll files s))).
Proof.
  revert s. induction files as [|f files IH]; intros s.
  - simpl. repeat split; tauto.
  - simpl. destruct (IH (enqueue f s)) as (Hc & Hp & Hb & Hr & Ht & Hnd & Hk & Hq).
    repeat split.
    + rewrite Hc. reflexivity.
    + rewrite Hp. reflexivity.
    + rewrite Hb. reflexivity.
    + rewrite Hr. reflexivity.
    + intros _. destruct files as [|g files]; [reflexivity|].
      apply Ht. discriminate.
    + intros H. apply Hnd, enqueue_NoDup, H.
    + intros p H. apply Hk, enqueue_keeps, H.
    + intros g [<-|Hg]; [apply Hk, enqueue_queued|apply Hq, Hg].
Qed.

(** Files with new, pairwise different paths are queued in order. *)
Lemma enqueueAll_fresh (files : list TFile) (s : State) :
  List.NoDup (queuedPaths s ++ map f_path files) ->
  loadFileQueue (enqueueAll files s) = loadFileQueue s ++ files.
Proof.
  revert s. induction files as [|f files IH]; intros s Hnd.
  - simpl. symmetry. apply app_nil_r.
  - simpl.
    assert (Hfresh : inQueue s f = false).
    { destruct (inQueue s f) eqn:E; [|reflexivity].
      apply inQueue_In in E. exfalso.
      apply (NoDup_app_disjoint _ _ Hnd _ E). now left. }
    rewrite IH.
    + unfold enqueue. simpl. rewrite Hfresh, <- app_assoc. reflexivity.
    + rewrite queuedPaths_enqueue, Hfresh, <- app_assoc. exact Hnd.
Qed.

Lemma timerFires_pending (s : State) (d : Z) (f : TFile) (q : list TFile) :
  loadFileTimer s = Some d -> loadFileQueue s = f :: q ->
  timerFires s =
  loadFileInfos (f :: q)
    {| loadFileQueue := []; loadFileTimer := None;
       processingFileInfo := processingFileInfo s; running := running s;
       calls := calls s; passes := passes s |}.
Proof. unfold timerFires. intros -> Hq. simpl. rewrite Hq. reflexivity. Qed.

(** C8: from a state whose queue holds no path twice, a burst of
    notifications for files with pairwise different paths, none of them
    interrupted by the timer, followed by the expiry of the timer, leads
    to exactly one call of [loadFileInfos]; its argument holds no path
    twice and holds the path of every notified file; it is the notified
    files themselves when the queue was empty; and when no pass is in
    flight that one call is one pass, after which nothing is queued and
    no timer is pending. *)
Theorem debounce_coalescing (s : State) (files : list TFile) :
  files <> [] ->
  List.NoDup (map f_path files) ->
  List.NoDup (queuedPaths s) ->
  exists diffs,
    calls (run s (map Notify files ++ [TimerFire])) = calls s ++ [diffs] /\
    List.NoDup (map f_path diffs) /\
    (forall f, In f files -> In (f_path f) (map f_path diffs)) /\
    (loadFileQueue s = [] -> diffs = files) /\
    (processingFileInfo s = false ->
       passes (run s (map Notify files ++ [TimerFire])) = passes s ++ [diffs] /\
       loadFileQueue (run s (map Notify files ++ [TimerFire])) = [] /\
       loadFileTimer (run s (map Notify files ++ [TimerFire])) = None).
Proof.
  intros Hne Hnd Hq.
  rewrite run_app, run_notify.
  destruct (enqueueAll_frame files s) as (Hc & Hp & Hb & Hr & Ht & Hndq & _ & Hall).
  specialize (Ht Hne). specialize (Hndq Hq).
  exists (loadFileQueue (enqueueAll files s)).
  destruct (loadFileQueue (enqueueAll files s)) as [|f q] eqn:Equeue.
  { destruct files as [|f files]; [contradiction|].
    specialize (Hall f (or_introl eq_refl)).
    unfold queuedPaths in Hall. rewrite Equeue in Hall. destruct Hall. }
  simpl run. rewrite (timerFires_pending _ _ _ _ Ht Equeue).
  unfold queuedPaths in Hndq, Hall. rewrite Equeue in Hndq, Hall.
  split; [|split; [exact Hndq|split; [exact Hall|split]]].
  - unfold loadFileInfos. simpl processingFileInfo.
    destruct (processingFileInfo (enqueueAll files s)).
    + match goal with |- calls (fold_left _ ?l ?st) = _ =>
        destruct (enqueueAll_frame l st) as (-> & _) end.
      simpl. rewrite Hc. reflexivity.
    + simpl. rewrite Hc. reflexivity.
  - intros Hempty. rewrite <- Equeue.
    rewrite enqueueAll_fresh.
    + rewrite Hempty. reflexivity.
    + unfold queuedPaths. rewrite Hempty. exact Hnd.
  - intros Hidle. unfold loadFileInfos. simpl processingFileInfo.
    rewrite Hb, Hidle. simpl. rewrite Hp. auto.
Qed.

Lemma debounce_coalescing_witness :
  [Examples.fileA; Examples.fileB] <> [] /\
  List.NoDup (map f_path [Examples.fileA; Examples.fileB]) /\
  List.NoDup (queuedPaths initial) /\
  exists diffs,
    calls (run initial (map Notify [Examples.fileA; Examples.fileB] ++ [TimerFire]))
      = calls initial ++ [diffs] /\
    diffs = [Examples.fileA; Examples.fileB].
Proof.
  assert (H1 : [Examples.fileA; Examples.fileB] <> []) by discriminate.
  assert (H2 : List.NoDup (map f_path [Examples.fileA; Examples.fileB])).
  { simpl. constructor.
    - intros [H|[]]. discriminate H.
    - constructor; [intros []|constructor]. }
  assert (H3 : List.NoDup (queuedPaths initial)) by constructor.
  split; [exact H1|]. split; [exact H2|]. split; [exact H3|].
  destruct (debounce_coalescing initial [Examples.fileA; Examples.fileB] H1 H2 H3)
    as (diffs & Hcalls & _ & _ & Hsame & _).
  exists diffs. split; [exact Hcalls|]. apply Hsame. reflexivity.
Defined.

Lemma loadFileInfos_flagMatches (diffs : list TFile) (s : State) :
  flagMatches s -> flagMatches (loadFileInfos diffs s).
Proof.
  unfold flagMatches, loadFileInfos. intros H.
  destruct (processingFileInfo s) eqn:E.
  - match goal with |- context [fold_left ?f ?l ?st] =>
      destruct (enqueueAll_frame l st) as (_ & _ & -> & -> & _) end.
    simpl. exact H.
  - simpl. rewrite H. reflexivity.
Qed.

Lemma step_flagMatches (s : State) (e : Event) :
  flagMatches s -> flagMatches (step s e).
Proof.
  intros H. destruct e as [f| | |o]; simpl.
  - exact H.
  - apply loadFileInfos_flagMatches. exact H.
  - unfold timerFires. destruct (loadFileTimer s); [|exact H].
    simpl. destruct (loadFileQueue s); [exact H|].
    apply loadFileInfos_flagMatches. exact H.
  - unfold flagMatches, finishPass in *. simpl. rewrite H.
    destruct (processingFileInfo s); reflexivity.
Qed.

Lemma reachable_flagMatches (trace : list Event) :
  flagMatches (run initial trace).
Proof.
  assert (G : forall s, flagMatches s -> flagMatches (run s trace)).
  { induction trace as [|e trace IH]; intros s H; [exact H|].
    simpl. apply IH, step_flagMatches, H. }
  apply G. reflexivity.
Qed.

Lemma loadFileInfos_busy (diffs : list TFile) (s : State) :
  processingFileInfo s = true ->
  processingFileInfo (loadFileInfos diffs s) = true /\
  passes (loadFileInfos diffs s) = passes s /\
  running (loadFileInfos diffs s) = running s /\
  (diffs <> [] -> loadFileTimer (loadFileInfos diffs s) = Some 200) /\
  (forall p, In p (queuedPaths s) -> In p (queuedPaths (loadFileInfos diffs s))) /\
  (forall f, In f diffs -> In (f_path f) (queuedPaths (loadFileInfos diffs s))).
Proof.
  intros Hbusy. unfold loadFileInfos. rewrite Hbusy.
  match goal with |- context [fold_left ?f ?l ?st] =>
    destruct (enqueueAll_frame l st) as (_ & Hp & Hb & Hr & Ht & _ & Hk & Hq) end.
  simpl in *. rewrite Hp, Hb, Hr. auto 10.
Qed.

Lemma loadFileInfos_idle (diffs : list TFile) (s : State) :
  processingFileInfo s = false ->
  passes (loadFileInfos diffs s) = passes s ++ [diffs].
Proof. intros Hidle. unfold loadFileInfos. rewrite Hidle. reflexivity. Qed.

(** While a pass is in flight, notifications and timer expiries start
    no pass. *)
Lemma step_busy_frame (s : State) (e : Event) :
  isQueueing e = true -> processingFileInfo s = true ->
  processingFileInfo (step s e) = true /\
  passes (step s e) = passes s /\ running (step s e) = running s.
Proof.
  intros He Hbusy. destruct e as [f| | |o]; try discriminate He; simpl.
  - auto.
  - unfold timerFires. destruct (loadFileTimer s); [|auto].
    simpl. destruct (loadFileQueue s) as [|g q]; [auto|].
    match goal with |- context [loadFileInfos ?l ?st] =>
      destruct (loadFileInfos_busy l st Hbusy) as (H1 & H2 & H3 & _) end.
    auto.
Qed.

(** ... and what is queued stays queued, with a timer pending. *)
Lemma step_busy_queue (wanted : list string) (s : State) (e : Event) :
  isQueueing e = true -> processingFileInfo s = true ->
  wanted <> [] -> loadFileTimer s = Some 200 ->
  (forall p, In p wanted -> In p (queuedPaths s)) ->
  loadFileTimer (step s e) = Some 200 /\
  (forall p, In p wanted -> In p (queuedPaths (step s e))).
Proof.
  intros He Hbusy Hne Ht Hq. destruct e as [f| | |o]; try discriminate He; simpl.
  - split; [reflexivity|]. intros p Hp. apply enqueue_keeps, Hq, Hp.
  - destruct (loadFileQueue s) as [|g q] eqn:Equeue.
    { destruct wanted as [|p wanted]; [contradiction|].
      specialize (Hq p (or_introl eq_refl)).
      unfold queuedPaths in Hq. rewrite Equeue in Hq. destruct Hq. }
    rewrite (timerFires_pending _ _ _ _ Ht Equeue).
    match goal with |- context [loadFileInfos ?l ?st] =>
      destruct (loadFileInfos_busy l st Hbusy) as (_ & _ & _ & Ht' & _ & Hall) end.
    split; [apply Ht'; discriminate|].
    intros p Hp. specialize (Hq p Hp). unfold queuedPaths in Hq.
    rewrite Equeue in Hq. apply in_map_iff in Hq as [h [<- Hh]].
    apply Hall, Hh.
Qed.

Lemma run_busy (wanted : list string) (trace : list Event) (s : State) :
  forallb isQueueing trace = true -> processingFileInfo s = true ->
  (processingFileInfo (run s trace) = true /\
   passes (run s trace) = passes s /\ running (run s trace) = running s) /\
  (wanted <> [] -> loadFileTimer s = Some 200 ->
   (forall p, In p wanted -> In p (queuedPaths s)) ->
   loadFileTimer (run s trace) = Some 200 /\
   (forall p, In p wanted -> In p (queuedPaths (run s trace)))).
Proof.
  revert s. induction trace as [|e trace IH]; intros s Htr Hbusy.
  - simpl. auto.
  - simpl in Htr. apply andb_prop in Htr as [He Htr]. simpl.
    destruct (step_busy_frame s e He Hbusy) as (Hb & Hp & Hr).
    destruct (IH (step s e) Htr Hb) as ((Hb' & Hp' & Hr') & Hq').
    split.
    + rewrite Hp', Hr', Hp, Hr. auto.
    + intros Hne Ht Hq.
      destruct (step_busy_queue wanted s e He Hbusy Hne Ht Hq) as (Ht1 & Hq1).
      apply Hq'; assumption.
Qed.

(** C9 (as amended): in every reachable state at most one pass is in
    flight.  A call of [loadFileInfos] made while the flag is set starts
    no pass and queues the path of each of its files.  While the pass
    stays in flight and only notifications and timer expiries arrive
    (no refresh without a file), no pass is started; when the pass then
    returns or throws, the flag is cleared; and when the timer expires
    after that, one further pass starts whose files cover each of those
    paths. *)
Theorem reentrancy_guard (s : State) (diffs : list TFile)
    (trace : list Event) (o : Outcome) :
  processingFileInfo s = true ->
  forallb isQueueing trace = true ->
  (forall reached, (running (run initial reached) <= 1)%nat) /\
  passes (loadFileInfos diffs s) = passes s /\
  running (loadFileInfos diffs s) = running s /\
  processingFileInfo (loadFileInfos diffs s) = true /\
  (forall f, In f diffs -> In (f_path f) (queuedPaths (loadFileInfos diffs s))) /\
  passes (run (loadFileInfos diffs s) trace) = passes s /\
  processingFileInfo (finishPass o (run (loadFileInfos diffs s) trace)) = false /\
  (diffs <> [] ->
   exists next,
     passes (timerFires (finishPass o (run (loadFileInfos diffs s) trace)))
       = passes s ++ [next] /\
     forall f, In f diffs -> In (f_path f) (map f_path next)).
Proof.
  intros Hbusy Htrace.
  destruct (loadFileInfos_busy diffs s Hbusy) as (Hb1 & Hp1 & Hr1 & Ht1 & _ & Hq1).
  destruct (run_busy (map f_path diffs) trace (loadFileInfos diffs s) Htrace Hb1)
    as ((Hb2 & Hp2 & Hr2) & Hq2).
  split.
  { intros reached. pose proof (reachable_flagMatches reached) as H.
    unfold flagMatches in H. rewrite H.
    destruct (processingFileInfo (run initial reached)); lia. }
  split; [exact Hp1|]. split; [exact Hr1|]. split; [exact Hb1|].
  split; [exact Hq1|]. split; [congruence|]. split; [reflexivity|].
  intros Hne.
  destruct Hq2 as (Ht2 & Hall).
  { destruct diffs; [contradiction|discriminate]. }
  { apply Ht1, Hne. }
  { intros p Hp. apply in_map_iff in Hp as [f [<- Hf]]. apply Hq1, Hf. }
  exists (loadFileQueue (run (loadFileInfos diffs s) trace)).
  split.
  - destruct (loadFileQueue (run (loadFileInfos diffs s) trace)) as [|g q] eqn:Equeue.
    { destruct diffs as [|f diffs]; [contradiction|].
      specialize (Hall (f_path f) (or_introl eq_refl)).
      unfold queuedPaths in Hall. rewrite Equeue in Hall. destruct Hall. }
    rewrite (timerFires_pending _ 200 g q); [|exact Ht2|exact Equeue].
    rewrite loadFileInfos_idle by reflexivity.
    simpl. congruence.
  - intros f Hf. apply Hall, in_map, Hf.
Qed.

Lemma reentrancy_guard_witness :
  processingFileInfo Examples.busyState = true /\
  forallb isQueueing [Notify Examples.fileA; TimerFire] = true /\
  passes (loadFileInfos [Examples.fileB] Examples.busyState)
    = passes Examples.busyState /\
  exists next,
    passes (timerFires (finishPass Threw
              (run (loadFileInfos [Examples.fileB] Examples.busyState)
                   [Notify Examples.fileA; TimerFire])))
      = passes Examples.busyState ++ [next] /\
    forall f, In f [Examples.fileB] -> In (f_path f) (map f_path next).
Proof.
  split; [reflexivity|]. split; [reflexivity|].
  destruct (reentrancy_guard Examples.busyState [Examples.fileB]
              [Notify Examples.fileA; TimerFire] Threw eq_refl eq_refl)
    as (_ & Hp & _ & _ & _ & _ & _ & Hnext).
  split; [exact Hp|]. apply Hnext. discriminate.
Defined.

(** C9 (as stated) fails.  The pass for [a.md] is in flight when the
    change of [b.md] is notified and queued; a refresh without a file
    then empties the queue, and its own call of [loadFileInfos] is
    turned away by the guard with nothing to queue again.  After the
    pass has ended no pass for [b.md] has run, nothing is queued and no
    timer is pending, so no timer expiry will bring one. *)
Lemma notification_lost_by_refresh :
  processingFileInfo (run initial [Notify Examples.fileA; TimerFire]) = true /\
  queuedPaths (run initial
     [Notify Examples.fileA; TimerFire; Notify Examples.fileB]) = ["b.md"] /\
  passes (run initial Examples.refreshDuringPass) = [[Examples.fileA]] /\
  processingFileInfo (run initial Examples.refreshDuringPass) = false /\
  loadFileQueue (run initial Examples.refreshDuringPass) = [] /\
  loadFileTimer (run initial Examples.refreshDuringPass) = None /\
  forall n, passes (run (run initial Examples.refreshDuringPass)
                        (repeat TimerFire n)) = [[Examples.fileA]].
Proof.
  repeat split.
  intros n. induction n as [|n IH]; [reflexivity|exact IH].
Qed.

End SchedulerFacts.

(** ** The link-invalidation sweep *)

Lemma uniqueAcc_In (seen items : list string) (x : string) :
  In x (JS.uniqueAcc seen items) <-> In x items /\ ~ In x seen.
Proof.
  revert seen. induction items as [|y items IH]; intros seen; simpl.
  - tauto.
  - destruct (JS.includes seen y) eqn:E.
    + rewrite IH. apply includes_In in E. split.
      * intros [H1 H2]. auto.
      * intros [[<-|H1] H2]; [contradiction|auto].
    + assert (Hy : ~ In y seen).
      { intros H. apply includes_In in H. congruence. }
      simpl. rewrite IH. simpl. split.
      * intros [<-|[H1 H2]]; [auto|]. split; [auto|]. intros H. apply H2. now right.
      * intros [[<-|H1] H2]; [now left|].
        destruct (String.eqb_spec y x) as [->|Hne]; [now left|].
        right. split; [exact H1|]. intros [->|H]; [congruence|contradiction].
Qed.

Lemma unique_In (items : list string) (x : string) :
  In x (JS.unique items) <-> In x items.
Proof. unfold JS.unique. rewrite uniqueAcc_In. simpl. tauto. Qed.

Lemma uniqueAcc_NoDup (seen items : list string) :
  List.NoDup (JS.uniqueAcc seen items).
Proof.
  revert seen. induction items as [|y items IH]; intros seen; simpl.
  - constructor.
  - destruct (JS.includes seen y); [apply IH|].
    constructor; [|apply IH].
    rewrite uniqueAcc_In. intros [_ H]. apply H. now left.
Qed.




Lemma getAbstractFileByPath_Some (host : Host) (p : string) (file : TFile) :
  getAbstractFileByPath host p = Some file ->
  In file (h_files host) /\ f_path file = p.
Proof.
  unfold getAbstractFileByPath. intros H. apply find_some in H as [Hin Heq].
  apply String.eqb_eq in Heq. auto.
Qed.

Lemma In_omap {A B} (f : A -> option B) (l : list A) (y : B) :
  In y (omap f l) <-> exists x, In x l /\ f x = Some y.
Proof.
  induction l as [|a l IH].
  - simpl. split; [intros []|intros [x [[] _]]].
  - change (omap f (a :: l))
      with (match f a with Some b => b :: omap f l | None => omap f l end).
    destruct (f a) as [b|] eqn:E; simpl; rewrite IH; split.
    + intros [<-|[x [Hx Hf]]]; eauto.
    + intros [x [[<-|Hx] Hf]]; [left; congruence|eauto].
    + intros [x [Hx Hf]]; eauto.
    + intros [x [[<-|Hx] Hf]]; [congruence|eauto].
Qed.




Lemma getFileCacheData_Some (pl : Plugin) (host : Host) (f : TFile)
    (nc : FileCache) :
  getFileCacheData pl host f = Some nc ->
  fc_file nc = f /\ fc_links nc = getFileCacheLinks host f /\
  hasMetadata host (f_path f) = true.
Proof.
  unfold getFileCacheData, hasMetadata.
  destruct (h_getFileCache host (f_path f)); [|discriminate].
  intros [= <-]. auto.
Qed.

Lemma getFileCacheData_None (pl : Plugin) (host : Host) (f : TFile) :
  getFileCacheData pl host f = None -> hasMetadata host (f_path f) = false.
Proof.
  unfold getFileCacheData, hasMetadata.
  destruct (h_getFileCache host (f_path f)); [discriminate|reflexivity].
Qed.




Lemma samePath_eq (p : string) (c : FileCache) :
  samePath p c = true <-> f_path (fc_file c) = p.
Proof. unfold samePath. apply String.eqb_eq. Qed.


















(** Two notes that link to each other: the sweep for [a.md] visits
    [b.md], which sends it back to [a.md], where it stops. *)
Example updateFileCaches_cycle :
  map (fun c => (f_path (fc_file c), fc_links c))
      (fileCaches (fst (updateFileCaches Examples.cyclePlugin Examples.cycleHost
                           [Some Examples.fileA])))
    = [("b.md", ["a.md"]); ("a.md", ["b.md"])] /\
  sweep Examples.cyclePlugin Examples.cycleHost 4 [Some Examples.fileA]
        (fileCaches Examples.cyclePlugin) false <> None /\
  sweep Examples.cyclePlugin Examples.cycleHost 3 [Some Examples.fileA]
        (fileCaches Examples.cyclePlugin) false = None.
Proof. split; [|split]; vm_compute; [reflexivity|discriminate|reflexivity]. Qed.

(** * Further properties *)

(** ** Strings: splitting and joining *)

Lemma append_cons (c : ascii) (a b : string) :
  String c a +:+ b = String c (a +:+ b).
Proof. reflexivity. Qed.

Lemma append_empty_l (b : string) : EmptyString +:+ b = b.
Proof. reflexivity. Qed.

Lemma split_cons (sep : ascii) (s : string) :
  exists piece rest, JS.split sep s = piece :: rest.
Proof.
  induction s as [|c s IH]; simpl; [eauto|].
  destruct (Ascii.eqb c sep); [eauto|].
  destruct IH as (piece & rest & ->). eauto.
Qed.

(** Splitting at a separator splits both sides. *)
Lemma split_app_sep (sep : ascii) (a b : string) :
  JS.split sep (a +:+ String sep b) = JS.split sep a ++ JS.split sep b.
Proof.
  induction a as [|c a IH].
  - rewrite append_empty_l. simpl. rewrite Ascii.eqb_refl. reflexivity.
  - rewrite append_cons. simpl. rewrite IH.
    destruct (Ascii.eqb c sep); [reflexivity|].
    destruct (split_cons sep a) as (piece & rest & ->). reflexivity.
Qed.

Lemma join_cons_char (sep : string) (c : ascii) (piece : string)
    (rest : list string) :
  JS.join sep (String c piece :: rest) = String c (JS.join sep (piece :: rest)).
Proof. destruct rest; reflexivity. Qed.

(** Joining the pieces with the separator gives the string back. *)
Lemma join_split (sep : ascii) (s : string) :
  JS.join (String sep EmptyString) (JS.split sep s) = s.
Proof.
  induction s as [|c s IH]; [reflexivity|].
  simpl JS.split. destruct (Ascii.eqb_spec c sep) as [->|Hne].
  - destruct (split_cons sep s) as (piece & rest & Hs).
    rewrite Hs in *. change (JS.join (String sep EmptyString)
                                     (EmptyString :: piece :: rest))
      with (String sep (JS.join (String sep EmptyString) (piece :: rest))).
    rewrite IH. reflexivity.
  - destruct (split_cons sep s) as (piece & rest & Hs).
    rewrite Hs in *. rewrite join_cons_char, IH. reflexivity.
Qed.

(** The pieces before the last one are the pieces of the folder. *)
Lemma split_parent (sep : ascii) (dir name : string) :
  noSeparator sep name ->
  removelast (JS.split sep (dir +:+ String sep name)) = JS.split sep dir.
Proof.
  intros Hname. rewrite split_app_sep, Hname. apply removelast_last.
Qed.

Lemma parent_of_nested (dir name : string) :
  noSeparator "/"%char name ->
  JS.join "/" (removelast (JS.split "/"%char (dir +:+ "/" +:+ name))) = dir.
Proof.
  intros Hname.
  change (dir +:+ "/" +:+ name) with (dir +:+ String "/"%char name).
  rewrite (split_parent _ _ _ Hname). apply (join_split "/"%char).
Qed.

(** ** Display names *)

(** X1: for a note [dir/name] the display name shows the folder: it is
    the title, [" : "] and the folder with the method [NAME : PATH], and
    the folder, ["/"] and the title with [PATH/NAME]; the title is the
    base name when [getFileTitle] gives the empty string. *)
Theorem getDisplayName_nested (pl : Plugin) (host : Host) (file : TFile)
    (dir name : string) :
  f_path file = dir +:+ "/" +:+ name ->
  noSeparator "/"%char name ->
  getDisplayName pl host file =
    let filename :=
      if String.eqb (getFileTitle pl host file) EmptyString
      then f_basename file else getFileTitle pl host file in
    match displayMethod (settings pl) with
    | NAME_PATH => filename +:+ " : " +:+ dir
    | PATH_NAME => dir +:+ "/" +:+ filename
    | NAME | OtherDisplayMethod => filename
    end.
Proof.
  intros Hpath Hname. unfold getDisplayName.
  rewrite Hpath, (parent_of_nested dir name Hname). reflexivity.
Qed.

(** X2: a note at the top of the vault has an empty folder part, so
    [PATH/NAME] shows it with a leading slash and [NAME : PATH] with
    nothing after the colon. *)
Theorem getDisplayName_top_level (pl : Plugin) (host : Host) (file : TFile) :
  noSeparator "/"%char (f_path file) ->
  getDisplayName pl host file =
    let filename :=
      if String.eqb (getFileTitle pl host file) EmptyString
      then f_basename file else getFileTitle pl host file in
    match displayMethod (settings pl) with
    | NAME_PATH => filename +:+ " : "
    | PATH_NAME => "/" +:+ filename
    | NAME | OtherDisplayMethod => filename
    end.
Proof.
  intros Hpath. unfold noSeparator in Hpath. unfold getDisplayName.
  rewrite Hpath. destruct (displayMethod (settings pl)); reflexivity.
Qed.

Lemma append_nonempty_r (a b : string) : b <> EmptyString -> a +:+ b <> EmptyString.
Proof.
  destruct a as [|c a]; [rewrite append_empty_l; tauto|].
  rewrite append_cons. discriminate.
Qed.

Lemma append_nonempty_l (a b : string) : a <> EmptyString -> a +:+ b <> EmptyString.
Proof.
  destruct a as [|c a]; [tauto|]. rewrite append_cons. discriminate.
Qed.

(** X3: a file with a base name never gets an empty display name,
    whatever the metadata and the display method: an empty title falls
    back to the base name. *)
Theorem getDisplayName_nonempty (pl : Plugin) (host : Host) (file : TFile) :
  f_basename file <> EmptyString ->
  getDisplayName pl host file <> EmptyString.
Proof.
  intros Hbase. unfold getDisplayName.
  set (title := getFileTitle pl host file).
  assert (Hfilename :
    (if String.eqb title EmptyString then f_basename file else title)
    <> EmptyString).
  { destruct (String.eqb_spec title EmptyString); assumption. }
  destruct (displayMethod (settings pl)); try exact Hfilename.
  - apply append_nonempty_r, append_nonempty_r, Hfilename.
  - apply append_nonempty_l, Hfilename.
Qed.

(** ** Item list: what every item satisfies *)

Lemma fileItems_expand (pl : Plugin) (host : Host) (mode : Mode)
    (fc : FileCache) (item : ViewItem) :
  In item (fileItems pl host mode fc) ->
  accepted pl host mode fc = true /\
  In item (expandItems pl host mode fc (effectiveTags pl host mode fc)).
Proof.
  unfold fileItems, accepted, effectiveTags.
  destruct (folderAccepted pl fc); simpl; [|intros []].
  destruct (hasIgnoredDocTag pl _); simpl; [intros []|].
  destruct (searchRejects pl host fc _); simpl; [intros []|].
  auto.
Qed.

(** The tags of an expanded item: either all the tags, or one of them
    with the others beside it. *)
Lemma expandItems_shape (pl : Plugin) (host : Host) (mode : Mode)
    (fc : FileCache) (tags : list string) (item : ViewItem) :
  In item (expandItems pl host mode fc tags) ->
  item = mkItem pl host fc (vi_tags item) (vi_extraTags item) /\
  ((vi_tags item = tags /\ vi_extraTags item = []) \/
   (exists t, In t tags /\ vi_tags item = [t] /\
              vi_extraTags item =
              List.filter (fun e => negb (String.eqb e t)) tags)).
Proof.
  unfold expandItems.
  destruct (disableNarrowingDown (settings pl) && isTagMode mode).
  - intros Hin. apply in_map_iff in Hin as [t [<- Ht]]. split; [reflexivity|].
    right. exists t. split; [|split; reflexivity].
    destruct (List.filter _ tags) as [|a matched] eqn:E; [exact Ht|].
    rewrite <- E in Ht. apply filter_In in Ht. tauto.
  - intros [<-|[]]. split; [reflexivity|]. left. split; reflexivity.
Qed.

Lemma getItemsList_origin (pl : Plugin) (host : Host) (mode : Mode)
    (item : ViewItem) :
  In item (getItemsList pl host mode) ->
  exists fc,
    In fc (fileCaches pl) /\ accepted pl host mode fc = true /\
    In item (expandItems pl host mode fc (effectiveTags pl host mode fc)).
Proof.
  unfold getItemsList, itemsOf. intros Hin.
  apply in_flat_map in Hin as [fc [Hfc Hitem]].
  apply fileItems_expand in Hitem. exists fc. tauto.
Qed.

(** X4: every item of the list is built from one cache entry that went
    past the filters: path, display name, times and file name are those
    of its file, [ancestors] is empty, and [links] is never empty (the
    entry's links, or ["_unlinked"] alone). *)
Theorem getItemsList_items_from_caches (pl : Plugin) (host : Host)
    (mode : Mode) (item : ViewItem) :
  In item (getItemsList pl host mode) ->
  exists fc,
    In fc (fileCaches pl) /\
    accepted pl host mode fc = true /\
    item = mkItem pl host fc (vi_tags item) (vi_extraTags item) /\
    vi_links item <> [] /\
    (fc_links fc = [] -> vi_links item = ["_unlinked"]).
Proof.
  intros Hin. apply getItemsList_origin in Hin as (fc & Hfc & Hacc & Hitem).
  apply expandItems_shape in Hitem as [Hmk _].
  exists fc. split; [exact Hfc|]. split; [exact Hacc|]. split; [exact Hmk|].
  rewrite Hmk. simpl. unfold linksOf.
  destruct (fc_links fc); split; try discriminate; reflexivity.
Qed.

Lemma expandItems_tags_incl (pl : Plugin) (host : Host) (mode : Mode)
    (fc : FileCache) (tags : list string) (item : ViewItem) (t : string) :
  In item (expandItems pl host mode fc tags) ->
  In t (vi_tags item ++ vi_extraTags item) -> In t tags.
Proof.
  intros Hitem Ht. apply expandItems_shape in Hitem as [_ Hshape].
  destruct Hshape as [[Htags Hextra]|(t0 & Ht0 & Htags & Hextra)];
    rewrite Htags, Hextra in Ht.
  - rewrite app_nil_r in Ht. exact Ht.
  - destruct Ht as [<-|Ht]; [exact Ht0|]. apply filter_In in Ht. tauto.
Qed.

(** X5: no item carries a tag of the ignore list, compared in lower
    case, neither among its tags nor among its extra tags. *)
Theorem getItemsList_no_ignored_tag (pl : Plugin) (host : Host) (mode : Mode)
    (item : ViewItem) (t : string) :
  In item (getItemsList pl host mode) ->
  In t (vi_tags item ++ vi_extraTags item) ->
  JS.includes (parseTagList (ignoreTags (settings pl))) (JS.toLowerCase t) = false.
Proof.
  intros Hin Ht. apply getItemsList_origin in Hin as (fc & _ & _ & Hitem).
  pose proof (expandItems_tags_incl _ _ _ _ _ _ _ Hitem Ht) as Heff.
  unfold effectiveTags, dropIgnoredTags in Heff.
  apply filter_In in Heff as [_ Hkeep]. apply negb_true_iff in Hkeep. exact Hkeep.
Qed.

Lemma NoDup_map_filter {A B} (g : A -> B) (f : A -> bool) (l : list A) :
  List.NoDup (map g l) -> List.NoDup (map g (List.filter f l)).
Proof.
  induction l as [|a l IH]; simpl; intros Hnd; [constructor|].
  inversion Hnd as [|? ? Ha Hl]; subst.
  destruct (f a); [|apply IH, Hl].
  simpl. constructor; [|apply IH, Hl].
  intros Hin. apply Ha. apply in_map_iff in Hin as [x [Hx Hin]].
  apply in_map_iff. exists x. split; [exact Hx|].
  apply filter_In in Hin. tauto.
Qed.

Lemma NoDup_map_eq {A B} (g : A -> B) (l : list A) (x y : A) :
  List.NoDup (map g l) -> In x l -> In y l -> g x = g y -> x = y.
Proof.
  induction l as [|a l IH]; simpl; intros Hnd Hx Hy Heq; [destruct Hx|].
  inversion Hnd as [|? ? Ha Hl]; subst.
  destruct Hx as [->|Hx], Hy as [->|Hy]; try reflexivity.
  - exfalso. apply Ha. rewrite Heq. apply in_map, Hy.
  - exfalso. apply Ha. rewrite <- Heq. apply in_map, Hx.
  - apply IH; assumption.
Qed.

Lemma effectiveTags_caseDistinct (pl : Plugin) (host : Host) (mode : Mode)
    (fc : FileCache) :
  caseDistinct (effectiveTags pl host mode fc).
Proof.
  unfold caseDistinct, effectiveTags, dropIgnoredTags, resolveTags.
  apply NoDup_map_filter. apply (uniqueCaseAcc_fresh [] _).
Qed.

(** X6: within one item no two tags are equal up to case, counting the
    tags and the extra tags together. *)
Theorem getItemsList_tags_caseDistinct (pl : Plugin) (host : Host)
    (mode : Mode) (item : ViewItem) :
  In item (getItemsList pl host mode) ->
  caseDistinct (vi_tags item ++ vi_extraTags item).
Proof.
  intros Hin. apply getItemsList_origin in Hin as (fc & _ & _ & Hitem).
  pose proof (effectiveTags_caseDistinct pl host mode fc) as Hnd.
  apply expandItems_shape in Hitem as [_ Hshape].
  destruct Hshape as [[Htags Hextra]|(t & Ht & Htags & Hextra)];
    rewrite Htags, Hextra.
  - rewrite app_nil_r. exact Hnd.
  - unfold caseDistinct in *. simpl. constructor.
    + intros Hlow. apply in_map_iff in Hlow as [y [Hy Hin]].
      apply filter_In in Hin as [Hin Hne].
      assert (y = t) by (eapply NoDup_map_eq; eassumption).
      subst y. rewrite String.eqb_refl in Hne. discriminate.
    + apply NoDup_map_filter, Hnd.
Qed.


Lemma flat_map_length_le {A B} (f : A -> list B) (l : list A) :
  (forall x, In x l -> (length (f x) <= 1)%nat) ->
  (length (flat_map f l) <= length l)%nat.
Proof.
  induction l as [|a l IH]; intros H; simpl; [lia|].
  rewrite length_app.
  pose proof (H a (or_introl eq_refl)).
  pose proof (IH (fun x Hx => H x (or_intror Hx))). lia.
Qed.

(** X8: outside the per-tag expansion, that is in link mode or with
    [disableNarrowingDown] off, a file is listed at most once: the list
    is no longer than the cache, and no item has extra tags. *)
Theorem getItemsList_one_item_per_file (pl : Plugin) (host : Host) (mode : Mode) :
  mode = LinkMode \/ disableNarrowingDown (settings pl) = false ->
  (length (getItemsList pl host mode) <= length (fileCaches pl))%nat /\
  forall item, In item (getItemsList pl host mode) -> vi_extraTags item = [].
Proof.
  intros Hcase.
  assert (Hoff : disableNarrowingDown (settings pl) && isTagMode mode = false).
  { destruct Hcase as [-> | ->]; [apply andb_false_r|reflexivity]. }
  split.
  - unfold getItemsList, itemsOf. apply flat_map_length_le. intros fc _.
    unfold fileItems, expandItems. rewrite Hoff.
    destruct (negb (folderAccepted pl fc)); [simpl; lia|].
    destruct (hasIgnoredDocTag pl _); [simpl; lia|].
    destruct (searchRejects pl host fc _); simpl; lia.
  - intros item Hin. apply getItemsList_origin in Hin as (fc & _ & _ & Hitem).
    unfold expandItems in Hitem. rewrite Hoff in Hitem.
    destruct Hitem as [<-|[]]. reflexivity.
Qed.

Lemma contains_empty (s : string) : JS.contains s EmptyString = true.
Proof. destruct s; reflexivity. Qed.

Lemma forallb_app_false {A} (f : A -> bool) (l : list A) (x : A) :
  f x = false -> forallb f (l ++ [x]) = false.
Proof.
  intros Hx. rewrite forallb_app. simpl. rewrite Hx. apply andb_false_r.
Qed.

(** X9: with an empty search string the search filter lets every file
    through, whatever its tags and title. *)
Theorem searchRejects_empty_search (pl : Plugin) (host : Host) (fc : FileCache)
    (allTags : list string) :
  searchString pl = EmptyString ->
  searchRejects pl host fc allTags = false.
Proof.
  intros Hsearch. unfold searchRejects. rewrite Hsearch.
  change (parseSearch EmptyString) with [[EmptyString]].
  simpl map. rewrite length_app. simpl length.
  replace (length allTags + 1 =? 0)%nat with false
    by (symmetry; apply Nat.eqb_neq; lia).
  simpl fold_left. unfold searchTerm. simpl.
  rewrite forallb_app_false; [reflexivity|].
  rewrite contains_empty. reflexivity.
Qed.










(** ** File caches *)


Lemma updateFileCachesAll_fileCaches (pl : Plugin) (host : Host) :
  fileCaches (fst (updateFileCachesAll pl host)) =
  omap (getFileCacheData pl host) (processFiles pl host).
Proof.
  unfold updateFileCachesAll, isFileCacheChanged. case_bool_decide; reflexivity.
Qed.

Lemma filesAll_In (host : Host) (f : TFile) :
  In f (filesAll host) ->
  In f (h_files host) /\ (f_extension f = "md" \/ f_extension f = "canvas").
Proof.
  unfold filesAll, getMarkdownFiles. intros Hin.
  apply in_app_or in Hin as [Hin|Hin]; apply filter_In in Hin as [Hf Hext];
    apply String.eqb_eq in Hext; auto.
Qed.

Lemma getFileCacheLinks_md (host : Host) (f : TFile) (link : string) :
  In link (getFileCacheLinks host f) -> JS.endsWith link ".md" = true.
Proof. unfold getFileCacheLinks. intros H. apply filter_In in H. tauto. Qed.

Lemma getFileCacheLinks_closed (host : Host) (f : TFile) :
  h_linkView host = false -> getFileCacheLinks host f = [].
Proof. unfold getFileCacheLinks. intros ->. reflexivity. Qed.

(** X13: after a full rescan every cache entry belongs to a markdown or
    canvas file of the vault for which the host has metadata; its links
    all end in [.md], and it has no links at all when no link view is
    open. *)
Theorem updateFileCachesAll_entries (pl : Plugin) (host : Host) (c : FileCache) :
  In c (fileCaches (fst (updateFileCachesAll pl host))) ->
  In (fc_file c) (h_files host) /\
  (f_extension (fc_file c) = "md" \/ f_extension (fc_file c) = "canvas") /\
  hasMetadata host (f_path (fc_file c)) = true /\
  (forall link, In link (fc_links c) -> JS.endsWith link ".md" = true) /\
  (h_linkView host = false -> fc_links c = []).
Proof.
  rewrite updateFileCachesAll_fileCaches. intros Hin.
  apply In_omap in Hin as [f [Hf Hdata]].
  apply filter_In in Hf as [Hf _]. apply filesAll_In in Hf as [Hvault Hext].
  apply getFileCacheData_Some in Hdata as (Hfile & Hlinks & Hmeta).
  rewrite Hfile, Hlinks.
  split; [exact Hvault|]. split; [exact Hext|]. split; [exact Hmeta|].
  split.
  - intros link. apply getFileCacheLinks_md.
  - apply getFileCacheLinks_closed.
Qed.

Lemma getFileCacheData_settings (pl pl' : Plugin) (host : Host) (f : TFile) :
  settings pl' = settings pl ->
  getFileCacheData pl' host f = getFileCacheData pl host f.
Proof.
  intros H. unfold getFileCacheData, getFileCacheTags. rewrite H. reflexivity.
Qed.

Lemma isFileCacheChanged_frame (pl : Plugin) :
  settings (fst (isFileCacheChanged pl)) = settings pl /\
  fileCaches (fst (isFileCacheChanged pl)) = fileCaches pl /\
  oldFileCache (fst (isFileCacheChanged pl)) = Some (dumpOf (fileCaches pl)).
Proof.
  unfold isFileCacheChanged. case_bool_decide; simpl; auto.
Qed.

(** X14: a full rescan repeated on an unchanged vault reports no change
    and leaves the cache as the first one made it. *)
Theorem updateFileCachesAll_twice (pl : Plugin) (host : Host) :
  snd (updateFileCachesAll (fst (updateFileCachesAll pl host)) host) = false /\
  fileCaches (fst (updateFileCachesAll (fst (updateFileCachesAll pl host)) host))
    = fileCaches (fst (updateFileCachesAll pl host)).
Proof.
  set (pl1 := fst (updateFileCachesAll pl host)).
  assert (Hset : settings pl1 = settings pl).
  { unfold pl1, updateFileCachesAll.
    destruct (isFileCacheChanged_frame
                (set_fileCaches pl (omap (getFileCacheData pl host)
                                         (processFiles pl host)))) as (H & _).
    exact H. }
  assert (Hparsed : parsedFileCache pl1 = parsedFileCache pl).
  { unfold pl1, updateFileCachesAll.
    rewrite isFileCacheChanged_parsedFileCache. reflexivity. }
  assert (Hold : oldFileCache pl1 = Some (dumpOf (fileCaches pl1))).
  { unfold pl1, updateFileCachesAll.
    destruct (isFileCacheChanged_frame
                (set_fileCaches pl (omap (getFileCacheData pl host)
                                         (processFiles pl host)))) as (_ & -> & ->).
    reflexivity. }
  assert (Hsame : omap (getFileCacheData pl1 host) (processFiles pl1 host)
                  = fileCaches pl1).
  { unfold pl1 at 3. rewrite updateFileCachesAll_fileCaches.
    unfold processFiles, needsProcessing. rewrite Hparsed.
    induction (List.filter _ (filesAll host)) as [|f l IH]; [reflexivity|].
    change (omap ?g (f :: l))
      with (match g f with Some b => b :: omap g l | None => omap g l end).
    rewrite (getFileCacheData_settings pl pl1 host f Hset), IH. reflexivity. }
  split.
  - unfold updateFileCachesAll at 1, isFileCacheChanged. simpl fileCaches.
    rewrite Hsame. simpl oldFileCache. rewrite Hold.
    rewrite bool_decide_eq_true_2 by reflexivity. reflexivity.
  - rewrite updateFileCachesAll_fileCaches. exact Hsame.
Qed.

Lemma cachePaths_omap (pl : Plugin) (host : Host) (l : list TFile) :
  cachePaths (omap (getFileCacheData pl host) l) =
  map f_path (List.filter (fun f => hasMetadata host (f_path f)) l).
Proof.
  induction l as [|f l IH]; [reflexivity|].
  change (omap ?g (f :: l))
    with (match g f with Some b => b :: omap g l | None => omap g l end).
  simpl List.filter.
  destruct (getFileCacheData pl host f) as [nc|] eqn:Hdata.
  - apply getFileCacheData_Some in Hdata as (Hfile & _ & ->).
    simpl. unfold cachePaths in *. simpl. rewrite IH, Hfile. reflexivity.
  - apply getFileCacheData_None in Hdata as ->. exact IH.
Qed.

Lemma filesAll_NoDup (host : Host) :
  List.NoDup (map f_path (h_files host)) ->
  List.NoDup (map f_path (filesAll host)).
Proof.
  intros Hnd. unfold filesAll, getMarkdownFiles. rewrite map_app.
  apply List.NoDup_app.
  - apply NoDup_map_filter, Hnd.
  - apply NoDup_map_filter, Hnd.
  - intros p Hmd Hcanvas.
    apply in_map_iff in Hmd as [f [Hf Hmd]].
    apply in_map_iff in Hcanvas as [g [Hg Hcanvas]].
    apply filter_In in Hmd as [Hfin Hfext].
    apply filter_In in Hcanvas as [Hgin Hgext].
    assert (f = g) as ->.
    { apply (NoDup_map_eq f_path (h_files host)); try assumption. congruence. }
    apply String.eqb_eq in Hfext, Hgext. rewrite Hfext in Hgext. discriminate.
Qed.

(** X15: when the vault gives every file a path of its own, a full
    rescan yields a cache with one entry per path. *)
Theorem updateFileCachesAll_distinct_paths (pl : Plugin) (host : Host) :
  List.NoDup (map f_path (h_files host)) ->
  List.NoDup (cachePaths (fileCaches (fst (updateFileCachesAll pl host)))).
Proof.
  intros Hnd. rewrite updateFileCachesAll_fileCaches, cachePaths_omap.
  apply NoDup_map_filter. unfold processFiles.
  apply NoDup_map_filter. apply filesAll_NoDup, Hnd.
Qed.

Lemma removeFirst_paths_incl (p q : string) (caches : list FileCache) :
  In q (cachePaths (removeFirst p caches)) -> In q (cachePaths caches).
Proof.
  induction caches as [|c rest IH]; simpl; [tauto|].
  destruct (samePath p c); simpl; [auto|]. intros [H|H]; auto.
Qed.

Lemma removeFirst_paths_NoDup (p : string) (caches : list FileCache) :
  List.NoDup (cachePaths caches) ->
  List.NoDup (cachePaths (removeFirst p caches)).
Proof.
  induction caches as [|c rest IH]; simpl; intros Hnd; [constructor|].
  inversion Hnd as [|? ? Hc Hrest]; subst.
  destruct (samePath p c); [exact Hrest|].
  simpl. constructor; [|apply IH, Hrest].
  intros Hin. apply Hc. eapply removeFirst_paths_incl, Hin.
Qed.

Lemma removeFirst_path_gone (p : string) (caches : list FileCache) :
  List.NoDup (cachePaths caches) ->
  ~ In p (cachePaths (removeFirst p caches)).
Proof.
  induction caches as [|c rest IH]; simpl; intros Hnd; [tauto|].
  inversion Hnd as [|? ? Hc Hrest]; subst.
  destruct (samePath p c) eqn:Hsame.
  - apply samePath_eq in Hsame. rewrite <- Hsame. exact Hc.
  - simpl. intros [Heq|Hin]; [|exact (IH Hrest Hin)].
    apply samePath_eq in Heq. rewrite Heq in Hsame. discriminate.
Qed.

Lemma removeFirst_absent (p : string) (caches : list FileCache) :
  List.find (samePath p) caches = None -> removeFirst p caches = caches.
Proof.
  induction caches as [|c rest IH]; simpl; [reflexivity|].
  destruct (samePath p c); [discriminate|]. intros H. rewrite IH by exact H.
  reflexivity.
Qed.

Lemma find_none_not_in (p : string) (caches : list FileCache) :
  List.find (samePath p) caches = None -> ~ In p (cachePaths caches).
Proof.
  induction caches as [|c rest IH]; simpl; [tauto|].
  destruct (samePath p c) eqn:Hsame; [discriminate|].
  intros Hfind [Heq|Hin]; [|exact (IH Hfind Hin)].
  apply samePath_eq in Heq. rewrite Heq in Hsame. discriminate.
Qed.

Lemma cachePaths_snoc (caches : list FileCache) (c : FileCache) :
  cachePaths (caches ++ [c]) = cachePaths caches ++ [f_path (fc_file c)].
Proof. unfold cachePaths. rewrite map_app. reflexivity. Qed.

Lemma NoDup_snoc {A} (l : list A) (x : A) :
  List.NoDup l -> ~ In x l -> List.NoDup (l ++ [x]).
Proof.
  intros Hl Hx. apply List.NoDup_app; [exact Hl|repeat constructor; simpl; tauto|].
  intros y Hy [<-|[]]. exact (Hx Hy).
Qed.

(** The cache one round of the loop leaves: the entry of the file's path
    is taken out and the fresh one, when the host has metadata, put at
    the end. *)
Lemma sweepStep_caches (pl : Plugin) (host : Host) (f : TFile)
    (caches : list FileCache) :
  snd (fst (sweepStep pl host f caches)) =
  removeFirst (f_path f) caches ++
  match getFileCacheData pl host f with Some nc => [nc] | None => [] end.
Proof.
  unfold sweepStep.
  destruct (List.find (samePath (f_path f)) caches) eqn:Hfind;
    [|rewrite (removeFirst_absent _ _ Hfind)];
    destruct (getFileCacheData pl host f); simpl; rewrite ?app_nil_r; reflexivity.
Qed.

Lemma sweepStep_NoDup (pl : Plugin) (host : Host) (f : TFile)
    (caches : list FileCache) :
  List.NoDup (cachePaths caches) ->
  List.NoDup (cachePaths (snd (fst (sweepStep pl host f caches)))).
Proof.
  intros Hnd. rewrite sweepStep_caches.
  destruct (getFileCacheData pl host f) as [nc|] eqn:Hdata.
  - rewrite cachePaths_snoc. apply NoDup_snoc.
    + apply removeFirst_paths_NoDup, Hnd.
    + apply getFileCacheData_Some in Hdata as (-> & _).
      apply removeFirst_path_gone, Hnd.
  - rewrite app_nil_r. apply removeFirst_paths_NoDup, Hnd.
Qed.

Lemma sweep_NoDup (pl : Plugin) (host : Host) (fuel : nat) :
  forall (queue : list (option TFile)) (caches : list FileCache) (u : bool)
         (r : list FileCache * bool),
    sweep pl host fuel queue caches u = Some r ->
    List.NoDup (cachePaths caches) -> List.NoDup (cachePaths (fst r)).
Proof.
  induction fuel as [|fuel IH]; intros queue caches u r; simpl; [discriminate|].
  destruct queue as [|[f|] rest].
  - intros [= <-]. auto.
  - pose proof (sweepStep_NoDup pl host f caches) as Hstep.
    destruct (sweepStep pl host f caches) as [[pushed caches'] changed].
    simpl in Hstep. intros Hrun Hnd. eapply IH; [exact Hrun|auto].
  - intros [= <-]. auto.
Qed.

(** X16: [updateFileCaches] keeps the cache at one entry per path: if
    the vault's files have distinct paths and so have the cached
    entries, the cache it leaves has distinct paths too, whether it
    rescans or follows the given files. *)
Theorem updateFileCaches_distinct_paths (pl : Plugin) (host : Host)
    (diffs : list (option TFile)) :
  List.NoDup (map f_path (h_files host)) ->
  List.NoDup (cachePaths (fileCaches pl)) ->
  List.NoDup (cachePaths (fileCaches (fst (updateFileCaches pl host diffs)))).
Proof.
  intros Hvault Hnd. unfold updateFileCaches.
  destruct ((length (fileCaches pl) =? 0)%nat || (length diffs =? 0)%nat).
  - apply updateFileCachesAll_distinct_paths, Hvault.
  - destruct (sweep pl host _ diffs (fileCaches pl) false) as [[caches' u]|] eqn:Hrun.
    + apply (sweep_NoDup _ _ _ _ _ _ _ Hrun Hnd).
    + exact Hnd.
Qed.


(** ** Invariants of the change scheduler *)

Module SchedulerInvariants.
Import Scheduler SchedulerFacts.

Lemma Forall_snoc {A} (P : A -> Prop) (l : list A) (x : A) :
  Forall P l -> P x -> Forall P (l ++ [x]).
Proof. intros Hl Hx. apply Forall_app. split; [exact Hl|repeat constructor; exact Hx]. Qed.

Lemma loadFileInfos_wellFormed (diffs : list TFile) (s : State) :
  loadFileQueue s = [] -> distinctPaths diffs ->
  Forall distinctPaths (calls s) -> Forall distinctPaths (passes s) ->
  wellFormed (loadFileInfos diffs s).
Proof.
  intros Hq Hd Hcalls Hpasses. unfold loadFileInfos.
  destruct (processingFileInfo s).
  - match goal with |- wellFormed (fold_left _ _ ?s1) =>
      destruct (enqueueAll_frame diffs s1)
        as (Hc & Hp & _ & _ & Htimer & Hnd & _) end.
    unfold wellFormed. rewrite Hc, Hp. simpl calls. simpl passes.
    split; [|split; [|split]].
    + apply Hnd. unfold queuedPaths. simpl. rewrite Hq. constructor.
    + destruct diffs as [|f q].
      * left. simpl. exact Hq.
      * right. apply Htimer. discriminate.
    + apply Forall_snoc; assumption.
    + exact Hpasses.
  - unfold wellFormed. simpl. rewrite Hq.
    split; [constructor|]. split; [left; reflexivity|].
    split; apply Forall_snoc; assumption.
Qed.

Lemma step_wellFormed (s : State) (e : Event) :
  wellFormed s -> wellFormed (step s e).
Proof.
  intros (Hq & Harmed & Hcalls & Hpasses). destruct e as [f| | |o]; simpl.
  - unfold wellFormed. split; [|split].
    + apply (enqueue_NoDup f s Hq).
    + right. reflexivity.
    + split; assumption.
  - apply loadFileInfos_wellFormed; simpl; try assumption; try reflexivity.
    constructor.
  - unfold timerFires. destruct (loadFileTimer s) as [d|] eqn:Htimer.
    + simpl. destruct (loadFileQueue s) as [|f q] eqn:Hqueue.
      * unfold wellFormed. simpl.
        split; [constructor|]. split; [left; reflexivity|]. split; assumption.
      * apply loadFileInfos_wellFormed; simpl; try assumption; reflexivity.
    + unfold wellFormed. auto.
  - unfold wellFormed. simpl. auto.
Qed.

(** X18: in every state the scheduler can reach, the queue holds no path
    twice, a non-empty queue has its 200 ms timeout pending, and every
    list of files handed to [loadFileInfos], and so every pass, holds no
    path twice. *)
Theorem reachable_wellFormed (trace : list Event) :
  wellFormed (run initial trace).
Proof.
  induction trace as [|e trace IH] using rev_ind.
  - unfold wellFormed, distinctPaths, queueArmed. simpl.
    split; [constructor|]. split; [left; reflexivity|]. split; constructor.
  - rewrite run_app. simpl. apply step_wellFormed, IH.
Qed.

Lemma onlyFrom_mono (known known' : list TFile) (s : State) :
  incl known known' -> onlyFrom known s -> onlyFrom known' s.
Proof.
  intros Hincl (Hq & Hc & Hp). split; [|split].
  - intros f Hf. auto.
  - eapply List.Forall_impl; [|exact Hc]. intros diffs Hd f Hf. auto.
  - eapply List.Forall_impl; [|exact Hp]. intros diffs Hd f Hf. auto.
Qed.

Lemma enqueueAll_queue_incl (known files : list TFile) :
  incl files known ->
  forall s, incl (loadFileQueue s) known ->
            incl (loadFileQueue (enqueueAll files s)) known.
Proof.
  induction files as [|f files IH]; intros Hfiles s Hs; simpl; [exact Hs|].
  apply IH.
  - intros g Hg. apply Hfiles. right. exact Hg.
  - simpl. destruct (inQueue s f); [exact Hs|].
    intros g Hg. apply in_app_or in Hg as [Hg|[<-|[]]]; [auto|].
    apply Hfiles. left. reflexivity.
Qed.

Lemma loadFileInfos_onlyFrom (known diffs : list TFile) (s : State) :
  incl diffs known -> onlyFrom known s -> onlyFrom known (loadFileInfos diffs s).
Proof.
  intros Hd (Hq & Hc & Hp). unfold loadFileInfos.
  destruct (processingFileInfo s).
  - match goal with |- onlyFrom _ (fold_left _ _ ?s1) =>
      destruct (enqueueAll_frame diffs s1) as (Hcalls & Hpasses & _);
      pose proof (enqueueAll_queue_incl known diffs Hd s1 Hq) as Hqueue end.
    unfold onlyFrom. rewrite Hcalls, Hpasses. simpl calls. simpl passes.
    split; [exact Hqueue|]. split; [apply Forall_snoc; assumption|exact Hp].
  - unfold onlyFrom. simpl. split; [exact Hq|].
    split; apply Forall_snoc; assumption.
Qed.

Lemma step_onlyFrom (known : list TFile) (s : State) (e : Event) :
  onlyFrom known s -> onlyFrom (known ++ notified [e]) (step s e).
Proof.
  intros Hs.
  assert (Hmono : incl known (known ++ notified [e])) by apply incl_appl, incl_refl.
  apply (onlyFrom_mono _ _ _ Hmono) in Hs. clear Hmono.
  destruct Hs as (Hq & Hc & Hp). destruct e as [f| | |o]; simpl step.
  - unfold onlyFrom. simpl. split; [|split; assumption].
    destruct (inQueue s f); [exact Hq|].
    intros g Hg. apply in_app_or in Hg as [Hg|[<-|[]]]; [auto|].
    apply in_or_app. right. left. reflexivity.
  - apply loadFileInfos_onlyFrom; [intros g []|].
    split; [intros g []|split; assumption].
  - unfold timerFires. destruct (loadFileTimer s); [|split; [|split]; assumption].
    simpl. destruct (loadFileQueue s) as [|f q] eqn:Hqueue.
    + split; [simpl; intros g []|split; assumption].
    + apply loadFileInfos_onlyFrom; [exact Hq|].
      split; [intros g []|split; assumption].
  - split; [|split]; assumption.
Qed.

Lemma notified_app (t1 t2 : list Event) :
  notified (t1 ++ t2) = notified t1 ++ notified t2.
Proof. unfold notified. apply flat_map_app. Qed.

(** X19: the scheduler makes up no work: in every reachable state each
    queued file, and each file of every list handed to [loadFileInfos],
    was the subject of a notification. *)
Theorem reachable_onlyFrom_notified (trace : list Event) :
  onlyFrom (notified trace) (run initial trace).
Proof.
  induction trace as [|e trace IH] using rev_ind.
  - split; [intros f []|split; constructor].
  - rewrite run_app, notified_app. simpl run. apply step_onlyFrom, IH.
Qed.

End SchedulerInvariants.

(** ** Sorting and publishing *)

(** X20: for each of the five sort keys, the descending comparator is
    the negation of the ascending one. *)
Theorem getCompareMethodItems_desc_negates (compare : string -> string -> Z)
    (asc desc : TagFolderSettings) (key : string) (a b : ViewItem) :
  In key ["DISPNAME"; "FULLPATH"; "MTIME"; "CTIME"; "NAME"] ->
  sortType asc = key +:+ "_ASC" ->
  sortType desc = key +:+ "_DESC" ->
  getCompareMethodItems compare desc a b = - getCompareMethodItems compare asc a b.
Proof.
  intros Hkey Hasc Hdesc. unfold getCompareMethodItems.
  rewrite Hasc, Hdesc. simpl in Hkey.
  destruct Hkey as [<-|[<-|[<-|[<-|[<-|[]]]]]];
    repeat match goal with
           | |- context [?x +:+ ?y] =>
               let v := eval vm_compute in (x +:+ y) in change (x +:+ y) with v
           end;
    unfold invertOf; simpl; lia.
Qed.

Lemma insertSorted_Permutation {A} (cmp : A -> A -> Z) (x : A) (l : list A) :
  Permutation (x :: l) (insertSorted cmp x l).
Proof.
  induction l as [|y l IH]; simpl; [reflexivity|].
  destruct (cmp x y <=? 0); [reflexivity|].
  rewrite perm_swap. apply perm_skip. exact IH.
Qed.

Lemma sort_Permutation {A} (cmp : A -> A -> Z) (l : list A) :
  Permutation l (sort cmp l).
Proof.
  induction l as [|x l IH]; simpl; [reflexivity|].
  rewrite <- insertSorted_Permutation. apply perm_skip. exact IH.
Qed.

(** X21: whatever the comparator, [applyFileInfoToView] publishes a
    rearrangement of the tag-mode item list; the link list is a
    rearrangement of the link-mode item list when a link view is open
    and is left alone when none is; the file caches are not touched. *)
Theorem applyFileInfoToView_publishes (pl : Plugin) (host : Host) :
  Permutation (getItemsList pl host TagMode)
              (allViewItems (applyFileInfoToView pl host)) /\
  (if h_linkView host
   then Permutation (getItemsList pl host LinkMode)
                    (allViewItemsByLink (applyFileInfoToView pl host))
   else allViewItemsByLink (applyFileInfoToView pl host) = allViewItemsByLink pl) /\
  fileCaches (applyFileInfoToView pl host) = fileCaches pl.
Proof.
  unfold applyFileInfoToView. destruct (h_linkView host); simpl.
  - split; [apply sort_Permutation|]. split; [|reflexivity].
    apply (sort_Permutation (compareItems pl) (getItemsList pl host LinkMode)).
  - split; [apply sort_Permutation|]. split; reflexivity.
Qed.

(** ** Tag information from the tree menu *)




(** ** The sort order of the settings tab *)

Lemma noSeparator_nth (sep : ascii) (s : string) :
  noSeparator sep s -> elementText (JS.split sep s) 0 = s.
Proof. unfold noSeparator. intros ->. reflexivity. Qed.

Lemma split_key_order (key order : string) :
  noSeparator "_"%char key -> noSeparator "_"%char order ->
  JS.split "_"%char (key +:+ "_" +:+ order) = [key; order].
Proof.
  intros Hkey Horder.
  change (key +:+ "_" +:+ order) with (key +:+ String "_"%char order).
  rewrite split_app_sep. unfold noSeparator in *. rewrite Hkey, Horder.
  reflexivity.
Qed.

(** X24: on a sort type [key_order], [setOrderMethod] with a new key
    keeps the order, with a new order keeps the key, and with neither
    (or with empty strings) gives the sort type back. *)
Theorem setOrderMethod_keeps_other_half (key order key' order' : string) :
  noSeparator "_"%char key -> noSeparator "_"%char order ->
  key' <> EmptyString -> order' <> EmptyString ->
  setOrderMethod (key +:+ "_" +:+ order) (Some key') None
    = key' +:+ "_" +:+ order /\
  setOrderMethod (key +:+ "_" +:+ order) None (Some order')
    = key +:+ "_" +:+ order' /\
  setOrderMethod (key +:+ "_" +:+ order) (Some key') (Some order')
    = key' +:+ "_" +:+ order' /\
  setOrderMethod (key +:+ "_" +:+ order) None None = key +:+ "_" +:+ order /\
  setOrderMethod (key +:+ "_" +:+ order) (Some EmptyString) (Some EmptyString)
    = key +:+ "_" +:+ order.
Proof.
  intros Hkey Horder Hk Ho. unfold setOrderMethod.
  rewrite (split_key_order key order Hkey Horder).
  apply String.eqb_neq in Hk, Ho. rewrite Hk, Ho. simpl.
  repeat split; reflexivity.
Qed.

(** X25: a sort type without [_] has no second half, and
    [setOrderMethod] without an order writes [undefined] in its
    place. *)
Theorem setOrderMethod_without_order (sortType : string) (key : option string) :
  noSeparator "_"%char sortType ->
  setOrderMethod sortType key None =
  (match key with
   | Some k => if String.eqb k EmptyString then sortType else k
   | None => sortType
   end) +:+ "_undefined".
Proof.
  unfold noSeparator, setOrderMethod. intros ->. simpl.
  destruct key as [k|]; [destruct (String.eqb k EmptyString)|]; reflexivity.
Qed.

(** ** Matching the items of a scroll view *)

Lemma prefix_refl (s : string) : String.prefix s s = true.
Proof.
  induction s as [|c s IH]; [reflexivity|]. simpl.
  destruct (ascii_dec c c); [exact IH|contradiction].
Qed.

Lemma toLowerCase_app (a b : string) :
  JS.toLowerCase (a +:+ b) = JS.toLowerCase a +:+ JS.toLowerCase b.
Proof.
  induction a as [|c a IH]; [reflexivity|].
  rewrite append_cons. simpl. rewrite IH. reflexivity.
Qed.

Lemma endsWith_app (a p : string) : JS.endsWith (a +:+ p) p = true.
Proof.
  induction a as [|c a IH].
  - rewrite append_empty_l. destruct p; simpl; rewrite ?String.eqb_refl, ?Ascii.eqb_refl;
      reflexivity.
  - rewrite append_cons. simpl. rewrite IH. apply orb_true_r.
Qed.

Lemma existsb_ext_in {A} (f g : A -> bool) (l : list A) :
  (forall x, f x = g x) -> existsb f l = existsb g l.
Proof. intros H. induction l as [|x l IH]; simpl; [reflexivity|]. rewrite H, IH. reflexivity. Qed.

Lemma existsb_map {A B} (h : A -> B) (f : B -> bool) (l : list A) :
  existsb f (map h l) = existsb (fun x => f (h x)) l.
Proof. induction l as [|x l IH]; simpl; [reflexivity|]. rewrite IH. reflexivity. Qed.

(** X26: for a tag that does not end in [/], an item matches when one
    of its tags, with [/] appended and case ignored, starts with the
    tag followed by [/]: the test for equality adds nothing.  The same
    tag written with a trailing [/] matches the same items. *)
Theorem scrollTagMatches_below (tag : string) (item : ViewItem) :
  JS.endsWith tag "/" = false ->
  scrollTagMatches tag item =
    existsb (fun itemTag =>
               JS.startsWith (JS.toLowerCase itemTag +:+ "/")
                             (JS.toLowerCase tag +:+ "/"))
            (vi_tags item) /\
  scrollTagMatches (tag +:+ "/") item = scrollTagMatches tag item.
Proof.
  intros Hslash.
  assert (Hred : forall a b : string,
             String.eqb a b || JS.startsWith (a +:+ "/") (b +:+ "/")
             = JS.startsWith (a +:+ "/") (b +:+ "/")).
  { intros a b. destruct (String.eqb_spec a b) as [->|_]; [|reflexivity].
    unfold JS.startsWith. rewrite prefix_refl. reflexivity. }
  assert (Hfirst : scrollTagMatches tag item =
                   existsb (fun itemTag =>
                              JS.startsWith (JS.toLowerCase itemTag +:+ "/")
                                            (JS.toLowerCase tag +:+ "/"))
                           (vi_tags item)).
  { unfold scrollTagMatches. rewrite Hslash, existsb_map.
    apply existsb_ext_in. intros t. apply Hred. }
  split; [exact Hfirst|].
  rewrite Hfirst. unfold scrollTagMatches.
  rewrite (endsWith_app tag "/"), existsb_map.
  apply existsb_ext_in. intros t.
  rewrite toLowerCase_app.
  change (JS.toLowerCase "/") with "/".
  assert (Hnil : forall s, s +:+ EmptyString = s).
  { induction s as [|c s IH]; [reflexivity|]. rewrite append_cons, IH. reflexivity. }
  rewrite Hnil.
  destruct (String.eqb_spec (JS.toLowerCase t) (JS.toLowerCase tag +:+ "/"))
    as [Heq|_]; simpl orb.
  - rewrite Heq. unfold JS.startsWith.
    assert (Hpre : forall a b, String.prefix a (a +:+ b) = true).
    { induction a as [|c a IH]; intros b; [destruct b; reflexivity|].
      rewrite append_cons. simpl. destruct (ascii_dec c c); [apply IH|contradiction]. }
    rewrite !Hpre. reflexivity.
  - reflexivity.
Qed.

Lemma filter_filter {A} (f g : A -> bool) (l : list A) :
  List.filter g (List.filter f l) = List.filter (fun x => f x && g x) l.
Proof.
  induction l as [|x l IH]; [reflexivity|]. simpl.
  destruct (f x); simpl; [destruct (g x)|]; rewrite IH; reflexivity.
Qed.

(** X27: the loop over the tags of the tag path keeps, in their order,
    exactly the items that match every one of the tags. *)
Theorem matchedFiles_all_tags (items : list ViewItem) (tags : list string) :
  matchedFiles items tags =
  List.filter (fun item => forallb (fun tag => scrollTagMatches tag item) tags) items.
Proof.
  unfold matchedFiles. revert items.
  induction tags as [|tag tags IH]; intros items; simpl.
  - induction items as [|x items IHi]; [reflexivity|]. simpl. rewrite <- IHi.
    reflexivity.
  - rewrite IH, filter_filter. reflexivity.
Qed.

(** ** Renaming a tag *)

Lemma includes_one (t x : string) : JS.includes [t] x = true -> x = t.
Proof.
  unfold JS.includes. simpl. rewrite orb_false_r. apply String.eqb_eq.
Qed.

Lemma renameTagItems_In (pl : Plugin) (host : Host) (tag newTag : string)
    (path : string) (tags : list string) :
  In (path, tags) (renameTagItems pl host tag newTag) ->
  newTag <> EmptyString /\ tag <> newTag /\
  exists item,
    In item (getItemsList pl host TagMode) /\ carriesTag tag item = true /\
    path = vi_path item /\
    tags = sort codeUnitCompare (JS.unique (newTag :: vi_extraTags item)).
Proof.
  unfold renameTagItems.
  destruct (String.eqb_spec newTag EmptyString) as [|Hne]; [intros []|].
  destruct (String.eqb_spec tag newTag) as [|Hdiff]; [intros []|].
  intros Hin. apply in_map_iff in Hin as [item [Heq Hitem]].
  apply filter_In in Hitem as [Hitem Hcarries]. injection Heq as <- <-.
  split; [exact Hne|]. split; [exact Hdiff|]. exists item. auto.
Qed.

(** X28: every frontmatter write of [renameTag] is for a file of the
    vault whose path is that of a cache entry listed under the old tag;
    the new tag is not empty and differs from the old one; the key
    written is the custom tag key, or [tags] when none is set; the tags
    written hold no duplicate.  With narrowing down enabled the tags
    written are the new tag alone; with narrowing down disabled they
    are the new tag and the entry's other effective tags. *)
Theorem renameTag_writes (pl : Plugin) (host : Host) (tag newTag : string)
    (file : TFile) (key : string) (tags : list string) :
  In (file, key, tags) (renameTag pl host tag newTag) ->
  newTag <> EmptyString /\ tag <> newTag /\
  In file (h_files host) /\
  key = (if String.eqb (customTagKey (settings pl)) EmptyString then "tags"
         else customTagKey (settings pl)) /\
  List.NoDup tags /\
  exists fc,
    In fc (fileCaches pl) /\ f_path (fc_file fc) = f_path file /\
    In tag (effectiveTags pl host TagMode fc) /\
    if disableNarrowingDown (settings pl)
    then forall t, In t tags <->
                   t = newTag \/ (In t (effectiveTags pl host TagMode fc) /\ t <> tag)
    else tags = [newTag].
Proof.
  unfold renameTag. intros Hin.
  apply In_omap in Hin as [[path tags'] [Hitems Hfile]]. simpl in Hfile.
  destruct (getAbstractFileByPath host path) as [file'|] eqn:Hlookup;
    [|discriminate].
  injection Hfile as <- <- <-.
  apply getAbstractFileByPath_Some in Hlookup as [Hvault Hpath].
  apply renameTagItems_In in Hitems
    as (Hne & Hdiff & item & Hitem & Hcarries & -> & ->).
  split; [exact Hne|]. split; [exact Hdiff|]. split; [exact Hvault|].
  split; [reflexivity|].
  split.
  { eapply Permutation_NoDup; [apply sort_Permutation|].
    apply uniqueAcc_NoDup. }
  apply getItemsList_origin in Hitem as (fc & Hfc & _ & Hitem).
  unfold carriesTag in Hcarries. apply andb_true_iff in Hcarries as [Hhas _].
  exists fc. split; [exact Hfc|].
  unfold expandItems in Hitem. simpl isTagMode in Hitem.
  rewrite andb_true_r in Hitem.
  destruct (disableNarrowingDown (settings pl)).
  - apply in_map_iff in Hitem as [t [<- Ht]].
    unfold mkItem in *. cbn [vi_tags vi_extraTags vi_path] in *.
    apply includes_one in Hhas. subst t.
    split; [symmetry; exact Hpath|].
    assert (Heff : In tag (effectiveTags pl host TagMode fc)).
    { destruct (List.filter _ (effectiveTags pl host TagMode fc)) eqn:E;
        [exact Ht|]. rewrite <- E in Ht. apply filter_In in Ht. tauto. }
    split; [exact Heff|].
    intros t. split.
    + intros Hin. apply (Permutation_in _ (Permutation_sym (sort_Permutation _ _))) in Hin.
      apply (proj1 (unique_In _ _)) in Hin. destruct Hin as [<-|Hin]; [left; reflexivity|].
      apply filter_In in Hin as [Hin Hneq]. right. split; [exact Hin|].
      intros ->. rewrite String.eqb_refl in Hneq. discriminate.
    + intros Hcase. apply (Permutation_in _ (sort_Permutation _ _)).
      apply (proj2 (unique_In _ _)). destruct Hcase as [->|[Hin Hneq]]; [left; reflexivity|].
      right. apply filter_In. split; [exact Hin|].
      apply negb_true_iff, String.eqb_neq, Hneq.
  - destruct Hitem as [<-|[]].
    unfold mkItem in *. cbn [vi_tags vi_extraTags vi_path] in *.
    split; [symmetry; exact Hpath|].
    split; [apply includes_In, Hhas|]. reflexivity.
Qed.

(** X29: [renameTag] writes nothing when the new tag is empty, when it
    is the old tag, and when the old tag is [_untagged]. *)
Theorem renameTag_writes_nothing (pl : Plugin) (host : Host) (tag newTag : string) :
  renameTag pl host tag EmptyString = [] /\
  renameTag pl host tag tag = [] /\
  renameTag pl host "_untagged" newTag = [].
Proof.
  unfold renameTag, renameTagItems. split; [reflexivity|]. split.
  - rewrite String.eqb_refl. destruct (String.eqb tag EmptyString); reflexivity.
  - destruct (String.eqb newTag EmptyString); [reflexivity|].
    destruct (String.eqb "_untagged" newTag); [reflexivity|].
    replace (List.filter (carriesTag "_untagged") (getItemsList pl host TagMode))
      with (@nil ViewItem); [reflexivity|].
    induction (getItemsList pl host TagMode) as [|i l IH]; [reflexivity|].
    simpl. rewrite <- IH. unfold carriesTag.
    destruct (JS.includes (vi_tags i) "_untagged"); reflexivity.
Qed.

(** ** The properties at work on concrete vaults *)

Lemma getDisplayName_nested_witness :
  f_path Examples.note = "notes" +:+ "/" +:+ "n.md" /\
  noSeparator "/"%char "n.md" /\
  getDisplayName Scenes.pathNamePlugin Examples.bareHost Examples.note = "notes/n".
Proof.
  split; [reflexivity|]. split; [reflexivity|].
  exact (getDisplayName_nested Scenes.pathNamePlugin Examples.bareHost
           Examples.note "notes" "n.md" eq_refl eq_refl).
Defined.

Lemma getDisplayName_top_level_witness :
  noSeparator "/"%char (f_path Examples.fileA) /\
  getDisplayName Scenes.pathNamePlugin Examples.bareHost Examples.fileA = "/a".
Proof.
  split; [reflexivity|].
  exact (getDisplayName_top_level Scenes.pathNamePlugin Examples.bareHost
           Examples.fileA eq_refl).
Defined.

Lemma getDisplayName_nonempty_witness :
  f_basename Examples.note <> EmptyString /\
  getDisplayName Scenes.pathNamePlugin Examples.bareHost Examples.note
    <> EmptyString.
Proof.
  assert (H : f_basename Examples.note <> EmptyString) by discriminate.
  split; [exact H|].
  exact (getDisplayName_nonempty Scenes.pathNamePlugin Examples.bareHost
           Examples.note H).
Defined.

Lemma getItemsList_items_from_caches_witness :
  In (mkItem (Examples.pqrPlugin false EmptyString) Examples.bareHost
             Examples.notePQR ["p"; "q"; "r"] [])
     (getItemsList (Examples.pqrPlugin false EmptyString) Examples.bareHost TagMode) /\
  exists fc,
    In fc (fileCaches (Examples.pqrPlugin false EmptyString)) /\
    accepted (Examples.pqrPlugin false EmptyString) Examples.bareHost TagMode fc
      = true.
Proof.
  assert (H : In (mkItem (Examples.pqrPlugin false EmptyString) Examples.bareHost
                         Examples.notePQR ["p"; "q"; "r"] [])
                 (getItemsList (Examples.pqrPlugin false EmptyString)
                               Examples.bareHost TagMode))
    by (left; reflexivity).
  split; [exact H|].
  destruct (getItemsList_items_from_caches _ _ _ _ H) as (fc & Hfc & Hacc & _).
  exists fc. split; assumption.
Defined.

Lemma getItemsList_no_ignored_tag_witness :
  In (mkItem Scenes.ignoreQPlugin Examples.bareHost Examples.notePQR ["p"; "r"] [])
     (getItemsList Scenes.ignoreQPlugin Examples.bareHost TagMode) /\
  JS.includes (parseTagList (ignoreTags (settings Scenes.ignoreQPlugin)))
              (JS.toLowerCase "r") = false.
Proof.
  assert (H : In (mkItem Scenes.ignoreQPlugin Examples.bareHost Examples.notePQR
                         ["p"; "r"] [])
                 (getItemsList Scenes.ignoreQPlugin Examples.bareHost TagMode))
    by (left; reflexivity).
  split; [exact H|].
  apply (getItemsList_no_ignored_tag _ _ _ _ "r" H).
  simpl. right. left. reflexivity.
Defined.

Lemma getItemsList_tags_caseDistinct_witness :
  In (mkItem (Examples.pqrPlugin true EmptyString) Examples.bareHost
             Examples.notePQR ["p"] ["q"; "r"])
     (getItemsList (Examples.pqrPlugin true EmptyString) Examples.bareHost TagMode) /\
  caseDistinct (["p"] ++ ["q"; "r"]).
Proof.
  assert (H : In (mkItem (Examples.pqrPlugin true EmptyString) Examples.bareHost
                         Examples.notePQR ["p"] ["q"; "r"])
                 (getItemsList (Examples.pqrPlugin true EmptyString)
                               Examples.bareHost TagMode))
    by (left; reflexivity).
  split; [exact H|].
  exact (getItemsList_tags_caseDistinct _ _ _ _ H).
Defined.


Lemma getItemsList_one_item_per_file_witness :
  disableNarrowingDown (settings (Examples.pqrPlugin false EmptyString)) = false /\
  (length (getItemsList (Examples.pqrPlugin false EmptyString) Examples.bareHost
                        TagMode) <= 1)%nat.
Proof.
  split; [reflexivity|].
  exact (proj1 (getItemsList_one_item_per_file
                  (Examples.pqrPlugin false EmptyString) Examples.bareHost TagMode
                  (or_intror eq_refl))).
Defined.

Lemma searchRejects_empty_search_witness :
  searchString Examples.barePlugin = EmptyString /\
  searchRejects Examples.barePlugin Examples.bareHost Examples.noteBare
                ["_untagged"] = false.
Proof.
  split; [reflexivity|].
  exact (searchRejects_empty_search Examples.barePlugin Examples.bareHost
           Examples.noteBare ["_untagged"] eq_refl).
Defined.




Lemma updateFileCachesAll_entries_witness :
  In (Examples.tagged Examples.fileFive ["#x"])
     (fileCaches (fst (updateFileCachesAll Examples.rescanPlugin Examples.rescanHost))) /\
  In Examples.fileFive (h_files Examples.rescanHost).
Proof.
  assert (H : In (Examples.tagged Examples.fileFive ["#x"])
                 (fileCaches (fst (updateFileCachesAll Examples.rescanPlugin
                                                       Examples.rescanHost))))
    by (left; reflexivity).
  split; [exact H|].
  exact (proj1 (updateFileCachesAll_entries _ _ _ H)).
Defined.

Lemma updateFileCachesAll_distinct_paths_witness :
  List.NoDup (map f_path (h_files Examples.rescanHost)) /\
  List.NoDup (cachePaths (fileCaches
     (fst (updateFileCachesAll Examples.rescanPlugin Examples.rescanHost)))).
Proof.
  assert (H : List.NoDup (map f_path (h_files Examples.rescanHost))).
  { simpl. constructor.
    - intros [H|[]]. discriminate H.
    - constructor; [intros []|constructor]. }
  split; [exact H|].
  exact (updateFileCachesAll_distinct_paths Examples.rescanPlugin
           Examples.rescanHost H).
Defined.

Lemma updateFileCaches_distinct_paths_witness :
  List.NoDup (map f_path (h_files Examples.cycleHost)) /\
  List.NoDup (cachePaths (fileCaches Examples.cyclePlugin)) /\
  List.NoDup (cachePaths (fileCaches
     (fst (updateFileCaches Examples.cyclePlugin Examples.cycleHost
                            [Some Examples.fileA])))).
Proof.
  assert (H : List.NoDup ["a.md"; "b.md"]).
  { constructor.
    - intros [H|[]]. discriminate H.
    - constructor; [intros []|constructor]. }
  split; [exact H|]. split; [exact H|].
  exact (updateFileCaches_distinct_paths Examples.cyclePlugin Examples.cycleHost
           [Some Examples.fileA] H H).
Defined.


Lemma getCompareMethodItems_desc_negates_witness :
  In "MTIME" ["DISPNAME"; "FULLPATH"; "MTIME"; "CTIME"; "NAME"] /\
  getCompareMethodItems codeUnitCompare
    (Examples.withSortType Examples.baseSettings "MTIME_DESC")
    (Examples.itemNamed "a") (Examples.itemNamed "b")
  = - getCompareMethodItems codeUnitCompare
        (Examples.withSortType Examples.baseSettings "MTIME_ASC")
        (Examples.itemNamed "a") (Examples.itemNamed "b").
Proof.
  assert (H : In "MTIME" ["DISPNAME"; "FULLPATH"; "MTIME"; "CTIME"; "NAME"])
    by (right; right; left; reflexivity).
  split; [exact H|].
  exact (getCompareMethodItems_desc_negates codeUnitCompare
           (Examples.withSortType Examples.baseSettings "MTIME_ASC")
           (Examples.withSortType Examples.baseSettings "MTIME_DESC")
           "MTIME" (Examples.itemNamed "a") (Examples.itemNamed "b")
           H eq_refl eq_refl).
Defined.


Lemma setOrderMethod_keeps_other_half_witness :
  noSeparator "_"%char "DISPNAME" /\ noSeparator "_"%char "ASC" /\
  setOrderMethod ("DISPNAME" +:+ "_" +:+ "ASC") (Some "MTIME") None
    = "MTIME" +:+ "_" +:+ "ASC".
Proof.
  split; [reflexivity|]. split; [reflexivity|].
  assert (H1 : "MTIME" <> EmptyString) by discriminate.
  assert (H2 : "DESC" <> EmptyString) by discriminate.
  exact (proj1 (setOrderMethod_keeps_other_half "DISPNAME" "ASC" "MTIME" "DESC"
                  eq_refl eq_refl H1 H2)).
Defined.

Lemma setOrderMethod_without_order_witness :
  noSeparator "_"%char "DISPNAME" /\
  setOrderMethod "DISPNAME" None None = "DISPNAME_undefined".
Proof.
  split; [reflexivity|].
  exact (setOrderMethod_without_order "DISPNAME" None eq_refl).
Defined.

Lemma scrollTagMatches_below_witness :
  JS.endsWith "p" "/" = false /\
  scrollTagMatches ("p" +:+ "/") Scenes.nestedItem
    = scrollTagMatches "p" Scenes.nestedItem.
Proof.
  split; [reflexivity|].
  exact (proj2 (scrollTagMatches_below "p" Scenes.nestedItem eq_refl)).
Defined.

Lemma renameTag_writes_witness :
  In (Examples.fileFive, "tags", ["y"])
     (renameTag Examples.rescanPlugin Examples.rescanHost "x" "y") /\
  In Examples.fileFive (h_files Examples.rescanHost) /\
  List.NoDup ["y"].
Proof.
  assert (H : In (Examples.fileFive, "tags", ["y"])
                 (renameTag Examples.rescanPlugin Examples.rescanHost "x" "y"))
    by (right; left; reflexivity).
  split; [exact H|].
  destruct (renameTag_writes _ _ _ _ _ _ _ H) as (_ & _ & Hvault & _ & Hnd & _).
  split; assumption.
Defined.
